(** * The icon label widget of vs/base/browser/ui/iconLabel/iconLabel.ts

    A shallow embedding of [FastLabelNode], [IconLabel] and [FileLabel].
    The DOM is an explicit store of elements addressed by their index;
    every assignment to a DOM property is also appended to a log of
    effects, which plays the role of a spy on the write points.  *)

From stdpp Require Import base option list strings.
From Stdlib Require Import Lia Ascii.

Open Scope string_scope.

(** ** JavaScript values the widget tests for truthiness *)

Module Js.

(** Truthiness of [s : string | undefined]: the empty string and
    [undefined] are both falsy. *)
Definition truthy (s : option string) : bool :=
  match s with
  | Some "" => false
  | Some _ => true
  | None => false
  end.

Definition or_empty (s : option string) : string :=
  match s with
  | Some v => v
  | None => ""
  end.

(** [b ? ... : ...] for [b : boolean | undefined]. *)
Definition truthy_bool (b : option bool) : bool :=
  match b with
  | Some v => v
  | None => false
  end.

(** [Array.prototype.join]. *)
Definition join (sep : string) (parts : list string) : string :=
  String.concat sep parts.

End Js.

(** ** The DOM store *)

Module Dom.

Record Element := mkElement {
  tagName : string;
  className : string;
  textContent : string;
  title : string;
  innerHTML : string;
  marginLeft : option string;     (* style.marginLeft, [None] is null *)
  color : string;                 (* style.color *)
  backgroundColor : string;       (* style.backgroundColor *)
  display : string;               (* style.display *)
  children : list nat
}.

Definition blank (tag : string) : Element :=
  mkElement tag "" "" "" "" None "" "" "" [].

Definition with_className (v : string) (e : Element) : Element :=
  mkElement (tagName e) v (textContent e) (title e) (innerHTML e)
    (marginLeft e) (color e) (backgroundColor e) (display e) (children e).
Definition with_textContent (v : string) (e : Element) : Element :=
  mkElement (tagName e) (className e) v (title e) (innerHTML e)
    (marginLeft e) (color e) (backgroundColor e) (display e) (children e).
Definition with_title (v : string) (e : Element) : Element :=
  mkElement (tagName e) (className e) (textContent e) v (innerHTML e)
    (marginLeft e) (color e) (backgroundColor e) (display e) (children e).
Definition with_innerHTML (v : string) (e : Element) : Element :=
  mkElement (tagName e) (className e) (textContent e) (title e) v
    (marginLeft e) (color e) (backgroundColor e) (display e) (children e).
Definition with_marginLeft (v : option string) (e : Element) : Element :=
  mkElement (tagName e) (className e) (textContent e) (title e) (innerHTML e)
    v (color e) (backgroundColor e) (display e) (children e).
Definition with_color (v : string) (e : Element) : Element :=
  mkElement (tagName e) (className e) (textContent e) (title e) (innerHTML e)
    (marginLeft e) v (backgroundColor e) (display e) (children e).
Definition with_backgroundColor (v : string) (e : Element) : Element :=
  mkElement (tagName e) (className e) (textContent e) (title e) (innerHTML e)
    (marginLeft e) (color e) v (display e) (children e).
Definition with_display (v : string) (e : Element) : Element :=
  mkElement (tagName e) (className e) (textContent e) (title e) (innerHTML e)
    (marginLeft e) (color e) (backgroundColor e) v (children e).
Definition with_child (c : nat) (e : Element) : Element :=
  mkElement (tagName e) (className e) (textContent e) (title e) (innerHTML e)
    (marginLeft e) (color e) (backgroundColor e) (display e) (children e ++ [c]).

(** A highlight match range of vs/base/common/filters. *)
Record IMatch := mkMatch { match_start : nat; match_end : nat }.

(** What the widget does to the outside world, in program order.  The
    first group are writes to DOM properties; the last two are the calls
    into the highlighted-label collaborator, which owns the content of
    its element. *)
Inductive Effect :=
| SetClassName (el : nat) (v : string)
| SetTextContent (el : nat) (v : string)
| SetTitle (el : nat) (v : string)
| SetInnerHTML (el : nat) (v : string)
| SetMarginLeft (el : nat) (v : option string)
| SetColor (el : nat) (v : string)
| SetBackgroundColor (el : nat) (v : string)
| SetDisplay (el : nat) (v : string)
| CreateElement (el : nat) (tag : string)
| AppendChild (parent child : nat)
| HighlightSet (el : nat) (text : string) (matches : option (list IMatch))
| HighlightDispose (el : nat).

(** A registered event listener: the element it listens on, the event
    type and the callback it forwards to. *)
Record Listener := mkListener {
  l_id : nat;
  l_target : nat;
  l_type : string;
  l_callback : nat
}.

Record World := mkWorld {
  elements : list Element;
  effects : list Effect;
  listeners : list Listener;
  next_listener : nat;
  calls : list nat               (* callbacks invoked so far *)
}.

(** Assignment to a property of element [el]. *)
Definition write (g : Element → Element) (el : nat) (ev : Effect) (w : World) : World :=
  mkWorld (alter g el (elements w)) (effects w ++ [ev])
    (listeners w) (next_listener w) (calls w).

Definition set_className el v := write (with_className v) el (SetClassName el v).
Definition set_textContent el v := write (with_textContent v) el (SetTextContent el v).
Definition set_title el v := write (with_title v) el (SetTitle el v).
Definition set_innerHTML el v := write (with_innerHTML v) el (SetInnerHTML el v).
Definition set_marginLeft el v := write (with_marginLeft v) el (SetMarginLeft el v).
Definition set_color el v := write (with_color v) el (SetColor el v).
Definition set_backgroundColor el v :=
  write (with_backgroundColor v) el (SetBackgroundColor el v).
Definition set_display el v := write (with_display v) el (SetDisplay el v).

(** [parent.appendChild(child)]. *)
Definition appendChild (parent child : nat) : World → World :=
  write (with_child child) parent (AppendChild parent child).

(** [document.createElement(tag)]: the new element gets the next index. *)
Definition createElement (tag : string) (w : World) : nat * World :=
  let el := length (elements w) in
  (el, mkWorld (elements w ++ [blank tag]) (effects w ++ [CreateElement el tag])
         (listeners w) (next_listener w) (calls w)).

(** Reading a property. *)
Definition get {A} (f : Element → A) (el : nat) (w : World) : option A :=
  f <$> elements w !! el.

End Dom.
Import Dom.

(** ** FastLabelNode *)

Module FastLabelNode.

(** The private fields start out [undefined]; [disposed] is only ever
    tested for truthiness, so [undefined] is [false]. *)
Record t := mk {
  disposed : bool;
  _textContent : option string;
  _className : option string;
  _title : option string;
  _empty : option bool;
  _element : nat
}.

Definition new (el : nat) : t := mk false None None None None el.

Definition element (this : t) : nat := _element this.

Definition set_textContent (content : string) (this : t) (w : World) : t * World :=
  if disposed this || bool_decide (_textContent this = Some content) then (this, w)
  else (mk (disposed this) (Some content) (_className this) (_title this)
          (_empty this) (_element this),
        Dom.set_textContent (_element this) content w).

Definition set_className (className : string) (this : t) (w : World) : t * World :=
  if disposed this || bool_decide (_className this = Some className) then (this, w)
  else (mk (disposed this) (_textContent this) (Some className) (_title this)
          (_empty this) (_element this),
        Dom.set_className (_element this) className w).

Definition set_title (title : string) (this : t) (w : World) : t * World :=
  if disposed this || bool_decide (_title this = Some title) then (this, w)
  else (mk (disposed this) (_textContent this) (_className this) (Some title)
          (_empty this) (_element this),
        Dom.set_title (_element this) title w).

Definition set_empty (empty : bool) (this : t) (w : World) : t * World :=
  if disposed this || bool_decide (_empty this = Some empty) then (this, w)
  else (mk (disposed this) (_textContent this) (_className this) (_title this)
          (Some empty) (_element this),
        Dom.set_marginLeft (_element this) (if empty then Some "0" else None) w).

Definition dispose (this : t) : t :=
  mk true (_textContent this) (_className this) (_title this) (_empty this)
    (_element this).

(** A call of one of the four setters, and a run of such calls. *)
Inductive Call :=
| CallTextContent (v : string)
| CallClassName (v : string)
| CallTitle (v : string)
| CallEmpty (v : bool).

Definition call (c : Call) : t → World → t * World :=
  match c with
  | CallTextContent v => set_textContent v
  | CallClassName v => set_className v
  | CallTitle v => set_title v
  | CallEmpty v => set_empty v
  end.

Fixpoint run (cs : list Call) (this : t) (w : World) : t * World :=
  match cs with
  | [] => (this, w)
  | c :: cs' => let '(this', w') := call c this w in run cs' this' w'
  end.

(** The value the wrapper last applied for the property a call sets. *)
Definition applied (c : Call) (this : t) : bool :=
  match c with
  | CallTextContent v => bool_decide (_textContent this = Some v)
  | CallClassName v => bool_decide (_className this = Some v)
  | CallTitle v => bool_decide (_title this = Some v)
  | CallEmpty v => bool_decide (_empty this = Some v)
  end.

(** The guard every setter starts with. *)
Definition skips (c : Call) (this : t) : bool := disposed this || applied c this.

(** Two calls that set different properties. *)
Definition other_property (c c' : Call) : Prop :=
  match c, c' with
  | CallTextContent _, CallTextContent _ | CallClassName _, CallClassName _
  | CallTitle _, CallTitle _ | CallEmpty _, CallEmpty _ => False
  | _, _ => True
  end.

(** The assignment a call makes to its element when it is not skipped. *)
Definition update_of (c : Call) : Element → Element :=
  match c with
  | CallTextContent v => with_textContent v
  | CallClassName v => with_className v
  | CallTitle v => with_title v
  | CallEmpty v => with_marginLeft (if v then Some "0" else None)
  end.

(** The effect a call has when it is not skipped. *)
Definition effect_of (c : Call) (el : nat) : Effect :=
  match c with
  | CallTextContent v => SetTextContent el v
  | CallClassName v => SetClassName el v
  | CallTitle v => SetTitle el v
  | CallEmpty v => SetMarginLeft el (if v then Some "0" else None)
  end.

(** The assignment of a call made without looking at the cache: only a
    disposed wrapper skips it. *)
Definition memo_write (c : Call) (this : t) (els : list Element) : list Element :=
  if disposed this then els else alter (update_of c) (_element this) els.

(** A cached value, when there is one, is the value [v]. *)
Definition agrees {A} (cache : option A) (v : A) : Prop :=
  match cache with
  | Some c => c = v
  | None => True
  end.

(** An assignment that touches none of the cached properties. *)
Definition uncached (g : Element → Element) : Prop :=
  ∀ e, Dom.textContent (g e) = Dom.textContent e ∧
       Dom.className (g e) = Dom.className e ∧
       Dom.title (g e) = Dom.title e ∧
       Dom.marginLeft (g e) = Dom.marginLeft e.

(** The element of a wrapper exists and has the values the wrapper
    cached. *)
Definition cache_ok (n : t) (els : list Element) : Prop :=
  match els !! _element n with
  | Some e =>
      agrees (_textContent n) (Dom.textContent e) ∧
      agrees (_className n) (Dom.className e) ∧
      agrees (_title n) (Dom.title e) ∧
      agrees ((λ b : bool, if b then Some "0" else None) <$> _empty n)
        (Dom.marginLeft e)
  | None => False
  end.

(** What a call appends to the log: nothing when it is skipped, else the
    one assignment to its element. *)
Definition writes (c : Call) (this : t) : list Effect :=
  if skips c this then [] else [effect_of c (_element this)].

(** The assignments of a run of calls, made without looking at the
    cache. *)
Definition run_writes (cs : list Call) (this : t) (els : list Element) : list Element :=
  foldl (λ els c, memo_write c this els) els cs.

End FastLabelNode.

(** ** Collaborators that live outside this file *)

Module Color.

(** Modelled from the spec: the class Color of vs/base/common/color is
    not part of the sources here.  The widget makes two observations of a
    color, its CSS text ([toString]) and its perceived darkness
    ([isDarker]), and uses the two constants [Color.white] and
    [Color.black]; a color is represented by these observations. *)
Record t := mk { toString : string; isDarker : bool }.

(** Modelled from the spec: the constant Color.white, the foreground of a
    badge on a darker color. *)
Definition white : t := mk "#ffffff" false.

(** Modelled from the spec: the constant Color.black, the foreground of a
    badge on any other color. *)
Definition black : t := mk "#000000" true.

End Color.

Module Lifecycle.

(** Modelled from the spec: IDisposable and combinedDisposable of
    vs/base/common/lifecycle, and addDisposableListener of
    vs/base/browser/dom, are not part of the sources here.  A disposal
    handle is the list of listener registrations it detaches; combining
    handles gives one handle that detaches all of them. *)
Definition IDisposable := list nat.

(** Modelled from the spec: combinedDisposable of vs/base/common/lifecycle,
    one handle that disposes all the handles given. *)
Definition combinedDisposable (ds : list IDisposable) : IDisposable := concat ds.

(** Modelled from the spec: addDisposableListener of vs/base/browser/dom,
    which registers the handler for events of the given type on the node
    and returns the handle that removes this registration. *)
Definition addDisposableListener (node : nat) (type : string) (handler : nat)
    (w : World) : IDisposable * World :=
  let id := next_listener w in
  ([id], mkWorld (elements w) (effects w)
           (listeners w ++ [mkListener id node type handler]) (S id) (calls w)).

(** Modelled from the spec: IDisposable.dispose, which detaches the
    registrations of the handle. *)
Definition dispose (d : IDisposable) (w : World) : World :=
  mkWorld (elements w) (effects w)
    (filter (λ l, l_id l ∉ d) (listeners w)) (next_listener w) (calls w).

(** Modelled from the spec: event dispatch of the DOM.  The listeners an
    event of the given type on [target] reaches, in registration order. *)
Definition reached (type : string) (target : nat) (w : World) : list Listener :=
  filter (λ l, l_target l = target ∧ l_type l = type) (listeners w).

(** Modelled from the spec: a click on [target]; every listener reached
    forwards to its callback. *)
Definition click (target : nat) (w : World) : World :=
  mkWorld (elements w) (effects w) (listeners w) (next_listener w)
    (calls w ++ (l_callback <$> reached "click" target w)).

(** Every registration has an identifier below the next one to hand out. *)
Definition listeners_ok (w : World) : Prop :=
  Forall (λ l, l_id l < next_listener w) (listeners w).

End Lifecycle.

Module DomHelpers.

(** Modelled from the spec: the helper [$] of vs/base/browser/dom is not
    part of the sources here; it creates an element of the given tag with
    the given class. *)
Definition dollar (tag cls : string) (w : World) : nat * World :=
  let '(el, w) := createElement tag w in
  (el, Dom.set_className el cls w).

(** Modelled from the spec: the helper [append] of vs/base/browser/dom,
    which appends the child to the parent and returns the child. *)
Definition append (parent : nat) (child : nat * World) : nat * World :=
  (child.1, appendChild parent child.1 child.2).

(** Modelled from the spec: the display of an element that [show] made
    visible (the inline display is cleared) and of one that [hide] hid. *)
Definition shown : string := "".
Definition hidden : string := "none".

(** Modelled from the spec: the helpers [show] and [hide] of
    vs/base/browser/dom. *)
Definition show (el : nat) : World → World := Dom.set_display el shown.
Definition hide (el : nat) : World → World := Dom.set_display el hidden.

End DomHelpers.

(** ** IconLabel *)

Module IconLabel.

Record IIconLabelCreationOptions := mkCreationOptions {
  supportHighlights : option bool
}.

Record Badge := mkBadge { letter : string; badge_title : string }.

Record IIconLabelOptions := mkOptions {
  title : option string;
  extraClasses : option (list string);
  italic : option bool;
  matches : option (list IMatch);
  color : option Color.t;
  badge : option Badge
}.

(** Modelled from the spec: HighlightedLabel of
    vs/base/browser/ui/highlightedlabel is not part of the sources here;
    in [labelNode: FastLabelNode | HighlightedLabel] it is represented by
    the element it renders into, and its [set] and [dispose] are recorded
    as effects. *)
Inductive LabelNode :=
| Plain (n : FastLabelNode.t)
| Highlighted (el : nat).

Record t := mk {
  domNode : FastLabelNode.t;
  labelNode : LabelNode;
  descriptionNode : FastLabelNode.t;
  badgeNode : option nat
}.

Definition with_badgeNode (b : option nat) (this : t) : t :=
  mk (domNode this) (labelNode this) (descriptionNode this) b.

(** The constructor: three elements under the container, each behind its
    wrapper. *)
Definition new (container : nat) (options : option IIconLabelCreationOptions)
    (w : World) : t * World :=
  let '(el, w) := DomHelpers.append container (DomHelpers.dollar "div" "monaco-icon-label" w) in
  let domNode := FastLabelNode.new el in
  let '(a, w) :=
    DomHelpers.append (FastLabelNode.element domNode) (DomHelpers.dollar "a" "label-name" w) in
  let labelNode :=
    if Js.truthy_bool (options ≫= supportHighlights)
    then Highlighted a else Plain (FastLabelNode.new a) in
  let '(span, w) :=
    DomHelpers.append (FastLabelNode.element domNode)
      (DomHelpers.dollar "span" "label-description" w) in
  (mk domNode labelNode (FastLabelNode.new span) None, w).

Definition element (this : t) : nat := FastLabelNode.element (domNode this).

Definition labelElement (this : t) : nat :=
  match labelNode this with
  | Highlighted el => el
  | Plain n => FastLabelNode.element n
  end.

Definition onClick (callback : nat) (this : t) (w : World)
    : Lifecycle.IDisposable * World :=
  let '(d1, w) := Lifecycle.addDisposableListener (labelElement this) "click" callback w in
  let '(d2, w) :=
    Lifecycle.addDisposableListener
      (FastLabelNode.element (descriptionNode this)) "click" callback w in
  (Lifecycle.combinedDisposable [d1; d2], w).

(** How a call ends: normally, or with the TypeError raised by
    [options.color.toString()] when [options.color] is undefined. *)
Inductive Completion := Normal | TypeError.

Record Run := mkRun { completion : Completion; widget : t; world : World }.

(** The class list of [setValue]. *)
Definition classes (options : option IIconLabelOptions) : list string :=
  ["monaco-icon-label"] ++
  match options with
  | Some o =>
      default [] (extraClasses o) ++
      (if Js.truthy_bool (italic o) then ["italic"] else [])
  | None => []
  end.

(** [options && options.title ? options.title : ''] *)
Definition title_of (options : option IIconLabelOptions) : string :=
  match options with
  | Some o => if Js.truthy (title o) then Js.or_empty (title o) else ""
  | None => ""
  end.

(** [s || ''] *)
Definition text_of (s : option string) : string :=
  if Js.truthy s then Js.or_empty s else "".

(** The body of [if (!this.badgeNode) { ... }]. *)
Definition createBadge (o : IIconLabelOptions) (this : t) (w : World) : Run :=
  let '(span, w) := createElement "span" w in
  let this := with_badgeNode (Some span) this in
  let w := Dom.set_className span "label-badge" w in
  match color o with
  | None => mkRun TypeError this w
  | Some c =>
      let w := Dom.set_backgroundColor span (Color.toString c) w in
      let w :=
        Dom.set_color span
          (Color.toString (if Color.isDarker c then Color.white else Color.black)) w in
      let w := Dom.set_display (element this) "flex" w in
      let w := appendChild (element this) span w in
      mkRun Normal this w
  end.

(** The three statements after it. *)
Definition updateBadge (b : Badge) (node : nat) (w : World) : World :=
  let w := Dom.set_innerHTML node (letter b) w in
  let w := Dom.set_title node (badge_title b) w in
  DomHelpers.show node w.

(** [options && options.badge], with the options it came from. *)
Definition badge_request (options : option IIconLabelOptions)
    : option (IIconLabelOptions * Badge) :=
  o ← options; b ← badge o; Some (o, b).

Definition setLabel (label : option string) (options : option IIconLabelOptions)
    (n : LabelNode) (w : World) : LabelNode * World :=
  match n with
  | Highlighted el =>
      (n, mkWorld (elements w)
            (effects w ++ [HighlightSet el (text_of label) (options ≫= matches)])
            (listeners w) (next_listener w) (calls w))
  | Plain f =>
      let '(f, w) := FastLabelNode.set_textContent (text_of label) f w in
      (Plain f, w)
  end.

(** [options.color ? options.color.toString() : ''] *)
Definition colorText (o : IIconLabelOptions) : string :=
  match color o with
  | Some c => Color.toString c
  | None => ""
  end.

(** [this.element.style.color = ...] inside [if (options) { ... }]. *)
Definition applyColor (options : option IIconLabelOptions) (this : t) (w : World) : World :=
  match options with
  | Some o =>
      Dom.set_color (element this)
        (colorText o) w
  | None => w
  end.

(** The first half of [setValue]: class list, title, color, label and
    description, all but the color through the memoized wrappers. *)
Definition writeNodes (label description : option string)
    (options : option IIconLabelOptions) (this : t) (w : World) : t * World :=
  let w := applyColor options this w in
  let '(dn, w) :=
    FastLabelNode.set_className (Js.join " " (classes options)) (domNode this) w in
  let '(dn, w) := FastLabelNode.set_title (title_of options) dn w in
  let '(ln, w) := setLabel label options (labelNode this) w in
  let '(desc, w) :=
    FastLabelNode.set_textContent (text_of description) (descriptionNode this) w in
  let '(desc, w) := FastLabelNode.set_empty (negb (Js.truthy description)) desc w in
  (mk dn ln desc (badgeNode this), w).

(** The second half: the badge is created, updated or hidden. *)
Definition reconcileBadge (options : option IIconLabelOptions) (this : t) (w : World)
    : Run :=
  match badge_request options with
  | Some (o, b) =>
      let r :=
        match badgeNode this with
        | None => createBadge o this w
        | Some _ => mkRun Normal this w
        end in
      match completion r, badgeNode (widget r) with
      | Normal, Some node => mkRun Normal (widget r) (updateBadge b node (world r))
      | _, _ => r
      end
  | None =>
      match badgeNode this with
      | Some node => mkRun Normal this (DomHelpers.hide node w)
      | None => mkRun Normal this w
      end
  end.

Definition setValue (label description : option string)
    (options : option IIconLabelOptions) (this : t) (w : World) : Run :=
  let '(this, w) := writeNodes label description options this w in
  reconcileBadge options this w.

Definition dispose (this : t) (w : World) : t * World :=
  let dn := FastLabelNode.dispose (domNode this) in
  let '(ln, w) :=
    match labelNode this with
    | Plain f => (Plain (FastLabelNode.dispose f), w)
    | Highlighted el =>
        (Highlighted el,
         mkWorld (elements w) (effects w ++ [HighlightDispose el])
           (listeners w) (next_listener w) (calls w))
    end in
  (mk dn ln (FastLabelNode.dispose (descriptionNode this)) (badgeNode this), w).

(** Sequences of calls on one label.  A call that throws leaves the label
    and the elements as it changed them up to there, and the next call
    goes on from that state. *)
Inductive Op :=
| OpSetValue (label description : option string) (options : option IIconLabelOptions)
| OpDispose.

Definition step (op : Op) (s : t * World) : t * World :=
  match op with
  | OpSetValue l d o => let r := setValue l d o s.1 s.2 in (widget r, world r)
  | OpDispose => dispose s.1 s.2
  end.

Definition exec (ops : list Op) (s : t * World) : t * World :=
  foldl (λ s op, step op s) s ops.

(** The calls [writeNodes] makes on the three wrappers. *)
Definition classCall (options : option IIconLabelOptions) : FastLabelNode.Call :=
  FastLabelNode.CallClassName (Js.join " " (classes options)).
Definition titleCall (options : option IIconLabelOptions) : FastLabelNode.Call :=
  FastLabelNode.CallTitle (title_of options).
Definition textCall (s : option string) : FastLabelNode.Call :=
  FastLabelNode.CallTextContent (text_of s).
Definition emptyCall (description : option string) : FastLabelNode.Call :=
  FastLabelNode.CallEmpty (negb (Js.truthy description)).

(** Every memoized setter of a [setValue] call with these arguments
    would be skipped. *)
Definition settled (label description : option string)
    (options : option IIconLabelOptions) (this : t) : Prop :=
  FastLabelNode.skips (classCall options) (domNode this) = true ∧
  FastLabelNode.skips (titleCall options) (domNode this) = true ∧
  match labelNode this with
  | Plain f => FastLabelNode.skips (textCall label) f = true
  | Highlighted _ => True
  end ∧
  FastLabelNode.skips (textCall description) (descriptionNode this) = true ∧
  FastLabelNode.skips (emptyCall description) (descriptionNode this) = true.

(** The effects of [writeNodes] that do not go through a memoized
    wrapper: the text color and the hand-over to the highlight
    collaborator. *)
Definition direct_writes (label : option string) (options : option IIconLabelOptions)
    (this : t) : list Effect :=
  match options with
  | Some o =>
      [SetColor (element this)
         (colorText o)]
  | None => []
  end ++
  match labelNode this with
  | Highlighted el => [HighlightSet el (text_of label) (options ≫= matches)]
  | Plain _ => []
  end.

(** The effects of [reconcileBadge] on a label that has its badge
    element already, or is not asked for one. *)
Definition badge_rewrites (options : option IIconLabelOptions) (this : t) : list Effect :=
  match badge_request options, badgeNode this with
  | Some (_, b), Some node =>
      [SetInnerHTML node (letter b); SetTitle node (badge_title b);
       SetDisplay node DomHelpers.shown]
  | None, Some node => [SetDisplay node DomHelpers.hidden]
  | _, None => []
  end.

(** The effects of [reconcileBadge] in general; [fresh] is the index the
    next created element gets. *)
Definition badge_effects (options : option IIconLabelOptions) (this : t) (fresh : nat)
    : list Effect :=
  match badge_request options, badgeNode this with
  | Some (o, b), None =>
      [CreateElement fresh "span"; SetClassName fresh "label-badge"] ++
      match color o with
      | Some c =>
          [SetBackgroundColor fresh (Color.toString c);
           SetColor fresh
             (Color.toString (if Color.isDarker c then Color.white else Color.black));
           SetDisplay (element this) "flex";
           AppendChild (element this) fresh;
           SetInnerHTML fresh (letter b); SetTitle fresh (badge_title b);
           SetDisplay fresh DomHelpers.shown]
      | None => []
      end
  | _, _ => badge_rewrites options this
  end.

(** The elements after [writeNodes], computed without the caches. *)
Definition paintLabel (label : option string) (n : LabelNode) (els : list Element)
    : list Element :=
  match n with
  | Plain f => FastLabelNode.memo_write (textCall label) f els
  | Highlighted _ => els
  end.

Definition paintNodes (label description : option string)
    (options : option IIconLabelOptions) (this : t) (els : list Element)
    : list Element :=
  let els :=
    match options with
    | Some o =>
        alter (with_color (colorText o))
          (element this) els
    | None => els
    end in
  let els := FastLabelNode.memo_write (classCall options) (domNode this) els in
  let els := FastLabelNode.memo_write (titleCall options) (domNode this) els in
  let els := paintLabel label (labelNode this) els in
  let els := FastLabelNode.memo_write (textCall description) (descriptionNode this) els in
  FastLabelNode.memo_write (emptyCall description) (descriptionNode this) els.

(** The elements after [updateBadge] and after a successful [createBadge]. *)
Definition paintUpdate (b : Badge) (node : nat) (els : list Element) : list Element :=
  alter (with_display DomHelpers.shown) node
    (alter (with_title (badge_title b)) node
       (alter (with_innerHTML (letter b)) node els)).

Definition paintCreate (c : Color.t) (this : t) (els : list Element) : list Element :=
  let span := length els in
  alter (with_child span) (element this)
    (alter (with_display "flex") (element this)
       (alter (with_color
                 (Color.toString (if Color.isDarker c then Color.white else Color.black)))
          span
          (alter (with_backgroundColor (Color.toString c)) span
             (alter (with_className "label-badge") span ((els ++ [blank "span"])%list))))).

(** The elements after [reconcileBadge]. *)
Definition paintBadge (options : option IIconLabelOptions) (this : t)
    (els : list Element) : list Element :=
  match badge_request options, badgeNode this with
  | Some (o, b), None =>
      match color o with
      | Some c => paintUpdate b (length els) (paintCreate c this els)
      | None => alter (with_className "label-badge") (length els) (els ++ [blank "span"])%list
      end
  | Some (_, b), Some node => paintUpdate b node els
  | None, Some node => alter (with_display DomHelpers.hidden) node els
  | None, None => els
  end.

(** The badge element the label holds after [reconcileBadge], and how the
    call ends. *)
Definition badge_after (options : option IIconLabelOptions) (this : t) (fresh : nat)
    : option nat :=
  match badge_request options, badgeNode this with
  | Some _, None => Some fresh
  | _, held => held
  end.

Definition completion_of (options : option IIconLabelOptions) (this : t) : Completion :=
  match badge_request options, badgeNode this with
  | Some (o, _), None => match color o with Some _ => Normal | None => TypeError end
  | _, _ => Normal
  end.

(** The invariant of a label and the elements it lives in: its elements
    exist and are pairwise distinct, and every wrapper's cache agrees with
    its element, the wrappers being the only writers of the properties
    they cache.  The constructor establishes it and every call keeps
    it. *)
Definition wf (this : t) (els : list Element) : Prop :=
  let n := length els in
  (element this < n ∧ labelElement this < n ∧
   FastLabelNode.element (descriptionNode this) < n) ∧
  (element this ≠ labelElement this ∧
   element this ≠ FastLabelNode.element (descriptionNode this) ∧
   labelElement this ≠ FastLabelNode.element (descriptionNode this)) ∧
  match badgeNode this with
  | Some b =>
      b < n ∧ b ≠ element this ∧ b ≠ labelElement this ∧
      b ≠ FastLabelNode.element (descriptionNode this)
  | None => True
  end ∧
  FastLabelNode.cache_ok (domNode this) els ∧
  FastLabelNode.cache_ok (descriptionNode this) els ∧
  match labelNode this with
  | Plain f => FastLabelNode.cache_ok f els
  | Highlighted _ => True
  end.

(** What one call leaves untouched on a label that holds a badge element:
    the badge element is the same, no element is created, the children of
    the container are the same, and every property of the badge element
    other than its letter, title and display is the same. *)
Definition badge_stable (b : nat) (s s' : t * World) : Prop :=
  badgeNode s'.1 = Some b ∧
  element s'.1 = element s.1 ∧
  length (elements s'.2) = length (elements s.2) ∧
  Dom.get children (element s.1) s'.2 = Dom.get children (element s.1) s.2 ∧
  ∀ A (f : Element → A),
    (∀ v e, f (with_innerHTML v e) = f e) →
    (∀ v e, f (with_title v e) = f e) →
    (∀ v e, f (with_display v e) = f e) →
    Dom.get f b s'.2 = Dom.get f b s.2.

(** The label renders its text itself, without highlight support. *)
Definition plain (this : t) : Prop :=
  match labelNode this with
  | Plain _ => True
  | Highlighted _ => False
  end.

(** Every wrapper of the label has been disposed. *)
Definition disposed_all (this : t) : Prop :=
  FastLabelNode.disposed (domNode this) = true ∧
  FastLabelNode.disposed (descriptionNode this) = true ∧
  match labelNode this with
  | Plain f => FastLabelNode.disposed f = true
  | Highlighted _ => True
  end.

(** An assignment to a [style.color]. *)
Definition is_color_write (ev : Effect) : bool :=
  match ev with
  | SetColor _ _ => true
  | _ => false
  end.

Definition quiet (evs : list Effect) : Prop :=
  Forall (λ ev, is_color_write ev = false) evs.

(** No wrapper of the label has been disposed. *)
Definition live (this : t) : Prop :=
  FastLabelNode.disposed (domNode this) = false ∧
  FastLabelNode.disposed (descriptionNode this) = false ∧
  match labelNode this with
  | Plain f => FastLabelNode.disposed f = false
  | Highlighted _ => True
  end.

(** The effects of a [setValue] call in program order: the color, the
    class list, the title, the label, the description and its margin, and
    last the badge; [fresh] is the index the next created element gets. *)
Definition trace (label description : option string)
    (options : option IIconLabelOptions) (this : t) (fresh : nat) : list Effect :=
  match options with
  | Some o => [SetColor (element this) (colorText o)]
  | None => []
  end ++
  FastLabelNode.writes (classCall options) (domNode this) ++
  FastLabelNode.writes (titleCall options) (domNode this) ++
  match labelNode this with
  | Highlighted el => [HighlightSet el (text_of label) (options ≫= matches)]
  | Plain f => FastLabelNode.writes (textCall label) f
  end ++
  FastLabelNode.writes (textCall description) (descriptionNode this) ++
  FastLabelNode.writes (emptyCall description) (descriptionNode this) ++
  badge_effects options this fresh.

(** The elements a label owns: container, label, description and, once
    created, the badge. *)
Definition owns (this : t) (i : nat) : Prop :=
  i = element this ∨ i = labelElement this ∨
  i = FastLabelNode.element (descriptionNode this) ∨ badgeNode this = Some i.

End IconLabel.

(** ** FileLabel *)

Module Paths.

(** Modelled from the spec: [dirname] and [basename] of
    vs/base/common/paths are not part of the sources here.  The path is
    split at its last '/': [dirname] is what precedes it ('/' itself for
    a file directly under the root, '.' for a path without a directory
    part) and [basename] is what follows it. *)
Fixpoint splitLast (path : string) : option (string * string) :=
  match path with
  | EmptyString => None
  | String c rest =>
      match splitLast rest with
      | Some (d, b) => Some (String c d, b)
      | None => if Ascii.eqb c "/"%char then Some ("", rest) else None
      end
  end.

(** Modelled from the spec: [dirname] of vs/base/common/paths, the parent
    directory of the path. *)
Definition dirname (path : string) : string :=
  match splitLast path with
  | None => "."
  | Some ("", _) => "/"
  | Some (d, _) => d
  end.

(** Modelled from the spec: [basename] of vs/base/common/paths, the last
    segment of the path. *)
Definition basename (path : string) : string :=
  match splitLast path with
  | None => path
  | Some (_, b) => b
  end.

End Paths.

Module FileLabel.

Record uri := mkUri { fsPath : string }.

Section Collaborators.

(** The path functions of vs/base/common/paths and [getPathLabel] of
    vs/base/common/labels, with the providers it consults. *)
Context {IWorkspaceFolderProvider IUserHomeProvider : Type}.
Variable dirname basename : string → string.
Variable getPathLabel :
  string → IWorkspaceFolderProvider → option IUserHomeProvider → string.

(** [parent && parent !== '.' ? getPathLabel(parent, ...) : ''] *)
Definition description_of (parent : string) (provider : IWorkspaceFolderProvider)
    (userHome : option IUserHomeProvider) : string :=
  if Js.truthy (Some parent) && negb (bool_decide (parent = "."))
  then getPathLabel parent provider userHome
  else "".

Definition setFile (file : uri) (provider : IWorkspaceFolderProvider)
    (userHome : option IUserHomeProvider) (this : IconLabel.t) (w : World)
    : IconLabel.Run :=
  let parent := dirname (fsPath file) in
  IconLabel.setValue (Some (basename (fsPath file)))
    (Some (description_of parent provider userHome))
    (Some (IconLabel.mkOptions (Some (fsPath file)) None None None None None))
    this w.

Definition new (container : nat) (file : uri) (provider : IWorkspaceFolderProvider)
    (userHome : option IUserHomeProvider) (w : World) : IconLabel.Run :=
  let '(this, w) := IconLabel.new container None w in
  setFile file provider userHome this w.

(** The description as the specification words it: the formatted
    parent directory, left out when the parent is the root of the
    path. *)
Definition spec_description (root : string) (file : uri)
    (provider : IWorkspaceFolderProvider) (userHome : option IUserHomeProvider)
    : string :=
  let parent := dirname (fsPath file) in
  if bool_decide (parent = root) then "" else getPathLabel parent provider userHome.

End Collaborators.

End FileLabel.

(** ** Sample inputs *)

Module Sample.

(** A document with one container element. *)
Definition page : World := mkWorld [blank "div"] [] [] 0 [].

Definition red : Color.t := Color.mk "#ff0000" true.

Definition modified : IconLabel.IIconLabelOptions :=
  IconLabel.mkOptions (Some "Modified file") (Some ["git"; "dirty"]) (Some true) None
    (Some red) (Some (IconLabel.mkBadge "M" "Modified")).

Definition colored : IconLabel.IIconLabelOptions :=
  IconLabel.mkOptions None None None None (Some red) None.

Definition badge_only : IconLabel.IIconLabelOptions :=
  IconLabel.mkOptions None None None None None (Some (IconLabel.mkBadge "M" "Modified")).

Definition yellow : Color.t := Color.mk "#ffff00" false.

Definition added : IconLabel.IIconLabelOptions :=
  IconLabel.mkOptions None None None None (Some yellow)
    (Some (IconLabel.mkBadge "A" "Added")).

Definition fresh : IconLabel.t * World := IconLabel.new 0 None page.

(** The label after a first call that asks for a badge. *)
Definition badged : IconLabel.t * World :=
  IconLabel.step (IconLabel.OpSetValue (Some "a.ts") None (Some modified)) fresh.

(** The label after [dispose]. *)
Definition disposed : IconLabel.t * World := IconLabel.dispose fresh.1 fresh.2.

End Sample.

(** * Properties *)

(** ** The memoized wrapper *)

Section FastLabelNodeFacts.

Import FastLabelNode.

Lemma call_skips c this w : skips c this = true → call c this w = (this, w).
Proof.
  unfold skips. destruct c; simpl;
    unfold set_textContent, set_className, set_title, set_empty;
    intros ->; reflexivity.
Qed.

Lemma call_disposed c this w : disposed (call c this w).1 = disposed this.
Proof.
  destruct c; simpl;
    unfold set_textContent, set_className, set_title, set_empty;
    case_match; reflexivity.
Qed.

Lemma call_element c this w : _element (call c this w).1 = _element this.
Proof.
  destruct c; simpl;
    unfold set_textContent, set_className, set_title, set_empty;
    case_match; reflexivity.
Qed.

(** After a setter ran, a second call with the same value is skipped. *)
Lemma call_settles c this w : skips c (call c this w).1 = true.
Proof.
  unfold skips.
  destruct c; simpl;
    unfold set_textContent, set_className, set_title, set_empty;
    case_match eqn:E; simpl; try exact E;
    rewrite bool_decide_eq_true_2 by reflexivity; apply orb_true_r.
Qed.

Lemma call_keeps c c' this w :
  other_property c c' → skips c' (call c this w).1 = skips c' this.
Proof.
  unfold skips.
  destruct c, c'; simpl; try contradiction; intros _;
    unfold set_textContent, set_className, set_title, set_empty;
    case_match; reflexivity.
Qed.

Lemma run_disposed cs this w : disposed this = true → run cs this w = (this, w).
Proof.
  intros Hd. induction cs as [|c cs IH]; simpl; [reflexivity|].
  rewrite call_skips; [exact IH|]. unfold skips. rewrite Hd. reflexivity.
Qed.

End FastLabelNodeFacts.

(** C6.  A setter of the memoized wrapper whose incoming value equals the
    value last applied, or whose wrapper is disposed, returns the wrapper
    and the world (elements and effect log) as they were; and once
    [dispose] has run, every run of setter calls leaves both untouched. *)
Theorem setters_are_guarded (this : FastLabelNode.t) (w : World) (c : FastLabelNode.Call)
    (H : FastLabelNode.disposed this = true ∨ FastLabelNode.applied c this = true) :
  FastLabelNode.call c this w = (this, w) ∧
  ∀ cs, FastLabelNode.run cs (FastLabelNode.dispose this) w = (FastLabelNode.dispose this, w).
Proof.
  split.
  - apply call_skips. unfold FastLabelNode.skips. destruct H as [-> | ->]; [reflexivity|].
    apply orb_true_r.
  - intros cs. apply run_disposed. reflexivity.
Qed.

Lemma setters_are_guarded_witness :
  let node := FastLabelNode.mk false (Some "main.ts") None None None 2 in
  (FastLabelNode.disposed node = true ∨
   FastLabelNode.applied (FastLabelNode.CallTextContent "main.ts") node = true) ∧
  FastLabelNode.call (FastLabelNode.CallTextContent "main.ts") node Sample.page
    = (node, Sample.page).
Proof.
  split.
  - right. reflexivity.
  - apply (setters_are_guarded _ Sample.page (FastLabelNode.CallTextContent "main.ts")).
    right. reflexivity.
Defined.

(** ** Elements under assignment *)

Section ElementFacts.

Context {A : Type} (f : Element → A).

Lemma field_alter_frame g j (l : list Element) i :
  (∀ e, f (g e) = f e) → f <$> alter g j l !! i = f <$> l !! i.
Proof.
  intros Hg. destruct (decide (j = i)) as [->|Hne].
  - rewrite list_lookup_alter_eq. destruct (l !! i); simpl; [|reflexivity].
    f_equal. apply Hg.
  - rewrite list_lookup_alter_ne by exact Hne. reflexivity.
Qed.

Lemma field_alter_ne g j (l : list Element) i :
  j ≠ i → f <$> alter g j l !! i = f <$> l !! i.
Proof. intros Hne. rewrite list_lookup_alter_ne by exact Hne. reflexivity. Qed.

Lemma field_alter_eq g (l : list Element) i :
  f <$> alter g i l !! i = (λ e, f (g e)) <$> l !! i.
Proof. rewrite list_lookup_alter_eq. destruct (l !! i); reflexivity. Qed.

Lemma field_snoc (l : list Element) x i :
  i < length l → f <$> (l ++ [x])%list !! i = f <$> l !! i.
Proof. intros Hi. rewrite lookup_app_l by exact Hi. reflexivity. Qed.

End ElementFacts.

Lemma alter_same (g : Element → Element) i (l : list Element) e :
  l !! i = Some e → g e = e → alter g i l = l.
Proof.
  intros Hl Hg. apply list_eq. intros j. destruct (decide (i = j)) as [<-|Hne].
  - rewrite list_lookup_alter_eq, Hl. simpl. congruence.
  - apply list_lookup_alter_ne. exact Hne.
Qed.

Section CacheFacts.

Import FastLabelNode.

Lemma cache_ok_lt n els : cache_ok n els → _element n < length els.
Proof.
  unfold cache_ok. destruct (els !! _element n) eqn:E; [|contradiction].
  intros _. eapply lookup_lt_Some. exact E.
Qed.

Lemma cache_ok_alter_ne g j n els :
  j ≠ _element n → cache_ok n els → cache_ok n (alter g j els).
Proof.
  intros Hne. unfold cache_ok. rewrite list_lookup_alter_ne by exact Hne. tauto.
Qed.

Lemma cache_ok_alter_uncached g j n els :
  uncached g → cache_ok n els → cache_ok n (alter g j els).
Proof.
  intros Hg. destruct (decide (j = _element n)) as [->|Hne].
  - unfold cache_ok. rewrite list_lookup_alter_eq.
    destruct (els !! _element n) as [e|]; simpl; [|tauto].
    destruct (Hg e) as (-> & -> & -> & ->). tauto.
  - apply cache_ok_alter_ne. exact Hne.
Qed.

Lemma cache_ok_snoc n els x : cache_ok n els → cache_ok n (els ++ [x])%list.
Proof.
  intros H. pose proof (cache_ok_lt _ _ H) as Hlt. revert H.
  unfold cache_ok. rewrite lookup_app_l by exact Hlt. tauto.
Qed.

Lemma cache_ok_memo_write_ne c m n els :
  _element m ≠ _element n → cache_ok n els → cache_ok n (memo_write c m els).
Proof.
  intros Hne H. unfold memo_write. destruct (disposed m); [exact H|].
  apply cache_ok_alter_ne; assumption.
Qed.

Lemma length_memo_write c n els : length (memo_write c n els) = length els.
Proof. unfold memo_write. destruct (disposed n); [reflexivity|apply length_alter]. Qed.

(** With a cache that agrees with the element, a skipped assignment and a
    performed one leave the same elements. *)
Lemma call_elements c n w :
  cache_ok n (elements w) → elements (call c n w).2 = memo_write c n (elements w).
Proof.
  unfold cache_ok, memo_write.
  destruct (elements w !! _element n) as [e|] eqn:E; [|contradiction].
  intros (Ht & Hc & Hi & Hm).
  destruct c; simpl;
    unfold set_textContent, set_className, set_title, set_empty;
    destruct (disposed n); simpl; try reflexivity;
    case_bool_decide as Hv; simpl; try reflexivity;
    symmetry; eapply alter_same; try exact E;
    rewrite Hv in *; simpl in *; destruct e; simpl in *; subst; reflexivity.
Qed.

Lemma cache_ok_call c n w :
  cache_ok n (elements w) → cache_ok (call c n w).1 (elements (call c n w).2).
Proof.
  unfold cache_ok.
  destruct (elements w !! _element n) as [e|] eqn:E; [|contradiction].
  intros (Ht & Hc & Hi & Hm).
  destruct c; simpl;
    unfold set_textContent, set_className, set_title, set_empty;
    destruct (disposed n || _) eqn:G; simpl; rewrite ?E;
    try (repeat split; assumption);
    rewrite list_lookup_alter_eq, E; simpl; repeat split; assumption.
Qed.

End CacheFacts.

(** ** The first half of setValue *)

Section WriteNodesFacts.

Import IconLabel.

Variables (label description : option string) (options : option IIconLabelOptions).

Lemma writeNodes_eq this w :
  writeNodes label description options this w =
  let p1 := FastLabelNode.call (classCall options) (domNode this) (applyColor options this w) in
  let p2 := FastLabelNode.call (titleCall options) p1.1 p1.2 in
  let p3 := setLabel label options (labelNode this) p2.2 in
  let p4 := FastLabelNode.call (textCall description) (descriptionNode this) p3.2 in
  let p5 := FastLabelNode.call (emptyCall description) p4.1 p4.2 in
  (mk p2.1 p3.1 p5.1 (badgeNode this), p5.2).
Proof.
  unfold writeNodes, applyColor. simpl.
  repeat match goal with
         | |- context [let '(_, _) := ?x in _] => destruct x; simpl
         end.
  reflexivity.
Qed.

Lemma setLabel_element n w :
  match (setLabel label options n w).1, n with
  | Plain f', Plain f =>
      FastLabelNode._element f' = FastLabelNode._element f ∧
      FastLabelNode.disposed f' = FastLabelNode.disposed f
  | Highlighted el', Highlighted el => el' = el
  | _, _ => False
  end.
Proof.
  destruct n as [f|el]; simpl; [|reflexivity].
  pose proof (call_element (textCall label) f w) as He.
  pose proof (call_disposed (textCall label) f w) as Hd.
  simpl in He, Hd. destruct (FastLabelNode.set_textContent _ f w). simpl in *.
  split; assumption.
Qed.

(** [writeNodes] keeps the identity of the label: its elements, its badge
    and which wrappers are disposed. *)
Lemma writeNodes_ids this w :
  let this' := (writeNodes label description options this w).1 in
  badgeNode this' = badgeNode this ∧
  element this' = element this ∧
  labelElement this' = labelElement this ∧
  FastLabelNode.element (descriptionNode this') = FastLabelNode.element (descriptionNode this) ∧
  FastLabelNode.disposed (domNode this') = FastLabelNode.disposed (domNode this) ∧
  FastLabelNode.disposed (descriptionNode this') = FastLabelNode.disposed (descriptionNode this) ∧
  (live this → live this').
Proof.
  rewrite writeNodes_eq. cbv zeta.
  unfold element, labelElement, FastLabelNode.element, live.
  cbn [fst snd domNode labelNode descriptionNode badgeNode].
  rewrite !call_element, !call_disposed.
  match goal with
  | |- context [setLabel _ _ ?n ?w] => pose proof (setLabel_element n w) as Hl
  end.
  destruct (setLabel _ _ _ _).1, (labelNode this); simpl in *; try contradiction.
  - destruct Hl as [-> ->]. tauto.
  - subst. tauto.
Qed.

Lemma applyColor_elements this w :
  elements (applyColor options this w) =
  match options with
  | Some o =>
      alter (with_color (colorText o))
        (element this) (elements w)
  | None => elements w
  end.
Proof. unfold applyColor. destruct options; reflexivity. Qed.

Lemma cache_ok_applyColor n this w :
  FastLabelNode.cache_ok n (elements w) → FastLabelNode.cache_ok n (elements (applyColor options this w)).
Proof.
  rewrite applyColor_elements. destruct options; [|tauto].
  apply cache_ok_alter_uncached. intros []; simpl; tauto.
Qed.

Lemma setLabel_elements n w :
  match n with Plain f => FastLabelNode.cache_ok f (elements w) | Highlighted _ => True end →
  elements (setLabel label options n w).2 = paintLabel label n (elements w).
Proof.
  destruct n as [f|el]; simpl; [|reflexivity].
  intros H. pose proof (call_elements (textCall label) f w H) as He.
  simpl in He. destruct (FastLabelNode.set_textContent _ f w). exact He.
Qed.

Lemma setLabel_cache_ok n w :
  match n with Plain f => FastLabelNode.cache_ok f (elements w) | Highlighted _ => True end →
  match (setLabel label options n w).1 with
  | Plain f' => FastLabelNode.cache_ok f' (elements (setLabel label options n w).2)
  | Highlighted _ => True
  end.
Proof.
  destruct n as [f|el]; simpl; [|tauto].
  intros H. pose proof (cache_ok_call (textCall label) f w H) as He.
  simpl in He. destruct (FastLabelNode.set_textContent _ f w). exact He.
Qed.

Lemma cache_ok_paintLabel m n els :
  match n with
  | Plain f => FastLabelNode._element f ≠ FastLabelNode._element m
  | Highlighted _ => True
  end →
  FastLabelNode.cache_ok m els → FastLabelNode.cache_ok m (paintLabel label n els).
Proof.
  destruct n as [f|el]; simpl; [|tauto]. apply cache_ok_memo_write_ne.
Qed.

Lemma length_paintNodes this els :
  length (paintNodes label description options this els) = length els.
Proof.
  unfold paintNodes, paintLabel.
  destruct (labelNode this), options; rewrite ?length_memo_write, ?length_alter; reflexivity.
Qed.

Lemma memo_write_ext c n m els :
  FastLabelNode.disposed n = FastLabelNode.disposed m →
  FastLabelNode._element n = FastLabelNode._element m →
  FastLabelNode.memo_write c n els = FastLabelNode.memo_write c m els.
Proof. unfold FastLabelNode.memo_write. intros -> ->. reflexivity. Qed.

(** Under the invariant, [writeNodes] leaves the elements that the
    assignments made without the caches leave, and keeps the invariant. *)
Lemma writeNodes_spec this w :
  wf this (elements w) →
  let p := writeNodes label description options this w in
  elements p.2 = paintNodes label description options this (elements w) ∧
  wf p.1 (elements p.2).
Proof.
  intros Hwf. pose proof Hwf as (Hlt & Hne & Hb & Hd & Hs & Hl).
  pose proof (writeNodes_ids this w) as Hids.
  cbv zeta in *. revert Hids. rewrite writeNodes_eq. cbv zeta.
  cbn [fst snd].
  set (w0 := applyColor options this w).
  set (p1 := FastLabelNode.call (classCall options) (domNode this) w0).
  set (p2 := FastLabelNode.call (titleCall options) p1.1 p1.2).
  set (p3 := setLabel label options (labelNode this) p2.2).
  set (p4 := FastLabelNode.call (textCall description) (descriptionNode this) p3.2).
  set (p5 := FastLabelNode.call (emptyCall description) p4.1 p4.2).
  intros (Ib & Ie & Il & Is & _).
  unfold element, labelElement, FastLabelNode.element in *.
  cbn [domNode labelNode descriptionNode badgeNode] in *.
  (* the color *)
  assert (Hd0 : FastLabelNode.cache_ok (domNode this) (elements w0))
    by (apply cache_ok_applyColor; exact Hd).
  assert (Hs0 : FastLabelNode.cache_ok (descriptionNode this) (elements w0))
    by (apply cache_ok_applyColor; exact Hs).
  assert (Hl0 : match labelNode this with
                | Plain f => FastLabelNode.cache_ok f (elements w0)
                | Highlighted _ => True
                end)
    by (destruct (labelNode this); [apply cache_ok_applyColor; exact Hl|exact I]).
  (* the class list *)
  assert (E1 : elements p1.2 =
               FastLabelNode.memo_write (classCall options) (domNode this) (elements w0))
    by (apply call_elements; exact Hd0).
  assert (Hd1 : FastLabelNode.cache_ok p1.1 (elements p1.2))
    by (apply cache_ok_call; exact Hd0).
  assert (Hs1 : FastLabelNode.cache_ok (descriptionNode this) (elements p1.2))
    by (rewrite E1; apply cache_ok_memo_write_ne; [tauto|exact Hs0]).
  assert (Hl1 : match labelNode this with
                | Plain f => FastLabelNode.cache_ok f (elements p1.2)
                | Highlighted _ => True
                end)
    by (rewrite E1; destruct (labelNode this);
        [apply cache_ok_memo_write_ne; [tauto|exact Hl0]|exact I]).
  assert (Ie1 : FastLabelNode._element p1.1 = FastLabelNode._element (domNode this))
    by apply call_element.
  (* the title *)
  assert (E2 : elements p2.2 =
               FastLabelNode.memo_write (titleCall options) (domNode this) (elements p1.2)).
  { unfold p2. rewrite call_elements by exact Hd1.
    apply memo_write_ext; [apply call_disposed|exact Ie1]. }
  assert (Hd2 : FastLabelNode.cache_ok p2.1 (elements p2.2))
    by (apply cache_ok_call; exact Hd1).
  assert (Hs2 : FastLabelNode.cache_ok (descriptionNode this) (elements p2.2))
    by (rewrite E2; apply cache_ok_memo_write_ne; [tauto|exact Hs1]).
  assert (Hl2 : match labelNode this with
                | Plain f => FastLabelNode.cache_ok f (elements p2.2)
                | Highlighted _ => True
                end)
    by (rewrite E2; destruct (labelNode this);
        [apply cache_ok_memo_write_ne; [tauto|exact Hl1]|exact I]).
  assert (Ie2 : FastLabelNode._element p2.1 = FastLabelNode._element (domNode this))
    by (unfold p2; rewrite call_element; exact Ie1).
  (* the label *)
  assert (E3 : elements p3.2 = paintLabel label (labelNode this) (elements p2.2))
    by (apply setLabel_elements; exact Hl2).
  assert (Hl3 : match p3.1 with
                | Plain f => FastLabelNode.cache_ok f (elements p3.2)
                | Highlighted _ => True
                end)
    by (apply setLabel_cache_ok; exact Hl2).
  assert (Hd3 : FastLabelNode.cache_ok p2.1 (elements p3.2)).
  { rewrite E3. apply cache_ok_paintLabel; [|exact Hd2].
    revert Hne. destruct (labelNode this); [|intros; exact I]. rewrite Ie2.
    intros Hne Heq. symmetry in Heq. tauto. }
  assert (Hs3 : FastLabelNode.cache_ok (descriptionNode this) (elements p3.2)).
  { rewrite E3. apply cache_ok_paintLabel; [|exact Hs2].
    revert Hne. destruct (labelNode this); [|intros; exact I]. tauto. }
  (* the description *)
  assert (E4 : elements p4.2 =
               FastLabelNode.memo_write (textCall description) (descriptionNode this)
                 (elements p3.2))
    by (apply call_elements; exact Hs3).
  assert (Hs4 : FastLabelNode.cache_ok p4.1 (elements p4.2))
    by (apply cache_ok_call; exact Hs3).
  assert (Ie4 : FastLabelNode._element p4.1 = FastLabelNode._element (descriptionNode this))
    by apply call_element.
  assert (E5 : elements p5.2 =
               FastLabelNode.memo_write (emptyCall description) (descriptionNode this)
                 (elements p4.2)).
  { unfold p5. rewrite call_elements by exact Hs4.
    apply memo_write_ext; [apply call_disposed|exact Ie4]. }
  assert (Hs5 : FastLabelNode.cache_ok p5.1 (elements p5.2))
    by (apply cache_ok_call; exact Hs4).
  assert (Hd5 : FastLabelNode.cache_ok p2.1 (elements p5.2)).
  { rewrite E5, E4. apply cache_ok_memo_write_ne; [rewrite Ie2; lia|].
    apply cache_ok_memo_write_ne; [rewrite Ie2; lia|exact Hd3]. }
  assert (Hl5 : match p3.1 with
                | Plain f => FastLabelNode.cache_ok f (elements p5.2)
                | Highlighted _ => True
                end).
  { rewrite E5, E4. destruct p3.1 as [f|]; [|exact I].
    simpl in Il.
    apply cache_ok_memo_write_ne; [rewrite Il; lia|].
    apply cache_ok_memo_write_ne; [rewrite Il; lia|exact Hl3]. }
  assert (E : elements p5.2 = paintNodes label description options this (elements w)).
  { rewrite E5, E4, E3, E2, E1. unfold w0. rewrite applyColor_elements. reflexivity. }
  split; [exact E|].
  unfold wf, element, labelElement, FastLabelNode.element.
  cbn [domNode labelNode descriptionNode badgeNode].
  rewrite Ie, Il, Is.
  assert (Hlen : length (elements p5.2) = length (elements w))
    by (rewrite E; apply length_paintNodes).
  rewrite Hlen.
  repeat split; try tauto; assumption.
Qed.

End WriteNodesFacts.

(** ** The second half of setValue *)

Section ReconcileBadgeFacts.

Import IconLabel.

Variable options : option IIconLabelOptions.

Lemma reconcileBadge_run this w :
  let r := reconcileBadge options this w in
  completion r = completion_of options this ∧
  widget r = with_badgeNode (badge_after options this (length (elements w))) this ∧
  elements (world r) = paintBadge options this (elements w) ∧
  effects (world r) = (effects w ++ badge_effects options this (length (elements w)))%list ∧
  listeners (world r) = listeners w ∧
  next_listener (world r) = next_listener w ∧
  calls (world r) = calls w.
Proof.
  unfold reconcileBadge, completion_of, badge_after, paintBadge, badge_effects,
    badge_rewrites.
  destruct (badge_request options) as [[o b]|], this as [dn ln ds [node|]]; simpl;
    try (unfold createBadge; simpl; destruct (color o) as [c|]; simpl);
    rewrite <- ?app_assoc, ?app_nil_r; simpl;
    repeat split; try reflexivity.
  all: rewrite ?length_alter; reflexivity.
Qed.

Ltac cache_step :=
  first [ assumption
        | apply cache_ok_alter_uncached; [intros []; simpl; tauto|]
        | apply cache_ok_alter_ne; [lia|]
        | apply cache_ok_snoc ].

Lemma length_paintBadge this els :
  length (paintBadge options this els) =
  match badge_request options, badgeNode this with
  | Some _, None => S (length els)
  | _, _ => length els
  end.
Proof.
  unfold paintBadge, paintUpdate, paintCreate.
  destruct (badge_request options) as [[o b]|], (badgeNode this) as [node|];
    try destruct (color o); rewrite ?length_alter, ?length_app; simpl; lia.
Qed.

Lemma paintBadge_cache_ok n this els :
  element this < length els →
  FastLabelNode._element n < length els →
  (∀ b, badgeNode this = Some b → b ≠ FastLabelNode._element n) →
  FastLabelNode.cache_ok n els → FastLabelNode.cache_ok n (paintBadge options this els).
Proof.
  intros He Hn Hb H.
  unfold paintBadge, paintUpdate, paintCreate.
  destruct (badge_request options) as [[o b]|], (badgeNode this) as [node|];
    try destruct (color o);
    try (specialize (Hb _ eq_refl));
    repeat cache_step.
Qed.

(** [reconcileBadge] keeps the invariant. *)
Lemma paintBadge_wf this els :
  wf this els →
  wf (with_badgeNode (badge_after options this (length els)) this)
    (paintBadge options this els).
Proof.
  intros (Hlt & Hne & Hb & Hd & Hs & Hl).
  pose proof (length_paintBadge this els) as Hlen.
  unfold wf, element, labelElement, FastLabelNode.element in *.
  cbn [with_badgeNode domNode labelNode descriptionNode badgeNode].
  assert (Hf : ∀ n, FastLabelNode._element n < length els →
                (∀ b, badgeNode this = Some b → b ≠ FastLabelNode._element n) →
                FastLabelNode.cache_ok n els →
                FastLabelNode.cache_ok n (paintBadge options this els)).
  { intros n Hn Hbn Hc. apply paintBadge_cache_ok; try assumption.
    unfold element, FastLabelNode.element. tauto. }
  repeat split.
  - destruct (badge_request options), (badgeNode this); lia.
  - destruct (badge_request options), (badgeNode this); lia.
  - destruct (badge_request options), (badgeNode this); lia.
  - tauto.
  - tauto.
  - tauto.
  - unfold badge_after.
    destruct (badge_request options), (badgeNode this); try exact I; lia.
  - apply Hf; try tauto. intros b Eb. rewrite Eb in Hb. lia.
  - apply Hf; try tauto. intros b Eb. rewrite Eb in Hb. lia.
  - destruct (labelNode this) as [f|hel]; [|exact I].
    apply Hf; try tauto. intros b Eb. rewrite Eb in Hb. lia.
Qed.

End ReconcileBadgeFacts.

(** ** setValue as a whole *)

Section SetValueFacts.

Import IconLabel.

Variables (label description : option string) (options : option IIconLabelOptions).

Lemma setValue_eq this w :
  setValue label description options this w =
  reconcileBadge options (writeNodes label description options this w).1
    (writeNodes label description options this w).2.
Proof. unfold setValue. destruct (writeNodes _ _ _ _ _). reflexivity. Qed.

(** The elements after a call, and the invariant. *)
Lemma setValue_spec this w :
  wf this (elements w) →
  let r := setValue label description options this w in
  elements (world r) =
    paintBadge options this (paintNodes label description options this (elements w)) ∧
  wf (widget r) (elements (world r)) ∧
  completion r = completion_of options this ∧
  badgeNode (widget r) = badge_after options this (length (elements w)) ∧
  element (widget r) = element this ∧
  labelElement (widget r) = labelElement this ∧
  FastLabelNode.element (descriptionNode (widget r)) =
    FastLabelNode.element (descriptionNode this).
Proof.
  intros Hwf. cbv zeta. rewrite setValue_eq.
  destruct (writeNodes_spec label description options this w Hwf) as [E Hwf'].
  destruct (writeNodes_ids label description options this w)
    as (Ib & Ie & Il & Is & _).
  cbv zeta in *.
  set (p := writeNodes label description options this w) in *.
  destruct (reconcileBadge_run options p.1 p.2) as (Hc & Hw & He & _).
  assert (Hlen : length (elements p.2) = length (elements w))
    by (rewrite E; apply length_paintNodes).
  assert (Ep : paintBadge options p.1 (elements p.2) =
               paintBadge options this
                 (paintNodes label description options this (elements w))).
  { rewrite E. unfold paintBadge, paintCreate. rewrite Ib, Ie. reflexivity. }
  assert (Ea : badge_after options p.1 (length (elements p.2)) =
               badge_after options this (length (elements w))).
  { unfold badge_after. rewrite Ib, Hlen. reflexivity. }
  split; [rewrite He; exact Ep|].
  split; [rewrite Hw, He; apply paintBadge_wf; exact Hwf'|].
  split; [rewrite Hc; unfold completion_of; rewrite Ib; reflexivity|].
  split; [rewrite Hw; simpl; exact Ea|].
  rewrite Hw. split; [exact Ie|]. split; [exact Il|exact Is].
Qed.

End SetValueFacts.

(** ** Construction, disposal and runs of calls *)

Section LifecycleFacts.

Import IconLabel.

Lemma cache_ok_new el els : el < length els → FastLabelNode.cache_ok (FastLabelNode.new el) els.
Proof.
  intros Hlt. unfold FastLabelNode.cache_ok. simpl.
  destruct (lookup_lt_is_Some_2 els el Hlt) as [e ->]. simpl. tauto.
Qed.

Lemma cache_ok_dispose n els :
  FastLabelNode.cache_ok n els → FastLabelNode.cache_ok (FastLabelNode.dispose n) els.
Proof. unfold FastLabelNode.cache_ok. simpl. tauto. Qed.

Lemma dollar_spec tag cls w :
  (DomHelpers.dollar tag cls w).1 = length (elements w) ∧
  length (elements (DomHelpers.dollar tag cls w).2) = S (length (elements w)).
Proof.
  unfold DomHelpers.dollar. simpl. rewrite length_alter, length_app. simpl. lia.
Qed.

Lemma append_spec parent child :
  (DomHelpers.append parent child).1 = child.1 ∧
  length (elements (DomHelpers.append parent child).2) = length (elements child.2).
Proof. unfold DomHelpers.append. simpl. rewrite length_alter. tauto. Qed.

Lemma new_eq container options w :
  new container options w =
  let c1 := DomHelpers.append container (DomHelpers.dollar "div" "monaco-icon-label" w) in
  let c2 := DomHelpers.append c1.1 (DomHelpers.dollar "a" "label-name" c1.2) in
  let c3 := DomHelpers.append c1.1 (DomHelpers.dollar "span" "label-description" c2.2) in
  (mk (FastLabelNode.new c1.1)
      (if Js.truthy_bool (options ≫= supportHighlights)
       then Highlighted c2.1 else Plain (FastLabelNode.new c2.1))
      (FastLabelNode.new c3.1) None,
   c3.2).
Proof.
  unfold new. cbv zeta.
  destruct (DomHelpers.append container _) as [el w1]. cbn [fst snd FastLabelNode.element
    FastLabelNode.new FastLabelNode._element].
  destruct (DomHelpers.append el _) as [a w2]. cbn [fst snd].
  destruct (DomHelpers.append el _) as [span w3]. reflexivity.
Qed.

Lemma new_spec_aux options n (c1 c2 c3 : nat * World) :
  c1.1 = n → c2.1 = S n → c3.1 = S (S n) → length (elements c3.2) = S (S (S n)) →
  let this :=
    mk (FastLabelNode.new c1.1)
      (if Js.truthy_bool (options ≫= supportHighlights)
       then Highlighted c2.1 else Plain (FastLabelNode.new c2.1))
      (FastLabelNode.new c3.1) None in
  element this = n ∧ labelElement this = S n ∧
  FastLabelNode.element (descriptionNode this) = S (S n) ∧
  badgeNode this = None ∧ live this ∧
  length (elements c3.2) = S (S (S n)) ∧
  wf this (elements c3.2).
Proof.
  intros E1 E2 E3 L3.
  unfold wf, live, element, labelElement, FastLabelNode.element.
  destruct (Js.truthy_bool (options ≫= supportHighlights)); simpl;
    rewrite E1, E2, E3, L3;
    repeat split; try lia; apply cache_ok_new; lia.
Qed.

(** A new label owns three new elements and satisfies the invariant. *)
Lemma new_spec container options w :
  let p := new container options w in
  let n := length (elements w) in
  element p.1 = n ∧ labelElement p.1 = S n ∧
  FastLabelNode.element (descriptionNode p.1) = S (S n) ∧
  badgeNode p.1 = None ∧ live p.1 ∧
  length (elements p.2) = S (S (S n)) ∧
  wf p.1 (elements p.2).
Proof.
  rewrite new_eq. cbv zeta.
  pose proof (append_spec container (DomHelpers.dollar "div" "monaco-icon-label" w))
    as [E1 L1].
  pose proof (dollar_spec "div" "monaco-icon-label" w) as [D1 M1].
  generalize dependent (DomHelpers.dollar "div" "monaco-icon-label" w). intros d1.
  generalize (DomHelpers.append container d1). intros c1 E1 L1 D1 M1.
  pose proof (append_spec c1.1 (DomHelpers.dollar "a" "label-name" c1.2)) as [E2 L2].
  pose proof (dollar_spec "a" "label-name" c1.2) as [D2 M2].
  generalize dependent (DomHelpers.dollar "a" "label-name" c1.2). intros d2.
  generalize (DomHelpers.append c1.1 d2). intros c2 E2 L2 D2 M2.
  pose proof (append_spec c1.1 (DomHelpers.dollar "span" "label-description" c2.2))
    as [E3 L3].
  pose proof (dollar_spec "span" "label-description" c2.2) as [D3 M3].
  generalize dependent (DomHelpers.dollar "span" "label-description" c2.2). intros d3.
  generalize (DomHelpers.append c1.1 d3). intros c3 E3 L3 D3 M3.
  apply new_spec_aux; congruence.
Qed.

Lemma dispose_spec this w :
  let p := dispose this w in
  elements p.2 = elements w ∧
  badgeNode p.1 = badgeNode this ∧
  element p.1 = element this ∧
  labelElement p.1 = labelElement this ∧
  FastLabelNode.element (descriptionNode p.1) = FastLabelNode.element (descriptionNode this) ∧
  (wf this (elements w) → wf p.1 (elements p.2)).
Proof.
  unfold dispose, wf, element, labelElement, FastLabelNode.element.
  destruct this as [dn [f|hel] ds bn]; simpl;
    repeat split; try tauto;
    try (apply cache_ok_dispose; tauto).
Qed.

Lemma step_wf op s : wf s.1 (elements s.2) → wf (step op s).1 (elements (step op s).2).
Proof.
  intros H. destruct op as [l d o|]; simpl.
  - apply (setValue_spec l d o s.1 s.2 H).
  - apply dispose_spec. exact H.
Qed.

Lemma exec_wf ops s : wf s.1 (elements s.2) → wf (exec ops s).1 (elements (exec ops s).2).
Proof.
  revert s. induction ops as [|op ops IH]; intros s H; simpl; [exact H|].
  apply IH. apply step_wf. exact H.
Qed.

(** Every label reached from the constructor by calls of [setValue] and
    [dispose] satisfies the invariant. *)
Lemma exec_new_wf container options w ops :
  let s := exec ops (new container options w) in
  wf s.1 (elements s.2).
Proof. apply exec_wf. apply new_spec. Qed.

End LifecycleFacts.

(** ** Reading properties after a call *)

Section FieldFacts.

Import IconLabel.

Context {A : Type} (f : Element → A).

Lemma field_memo_write_frame c n els i :
  (∀ e, f (FastLabelNode.update_of c e) = f e) →
  f <$> FastLabelNode.memo_write c n els !! i = f <$> els !! i.
Proof.
  intros Hf. unfold FastLabelNode.memo_write. destruct (FastLabelNode.disposed n);
    [reflexivity|]. apply field_alter_frame. exact Hf.
Qed.

Lemma field_memo_write_ne c n els i :
  FastLabelNode._element n ≠ i →
  f <$> FastLabelNode.memo_write c n els !! i = f <$> els !! i.
Proof.
  intros Hne. unfold FastLabelNode.memo_write. destruct (FastLabelNode.disposed n);
    [reflexivity|]. apply field_alter_ne. exact Hne.
Qed.

Lemma field_memo_write_eq c n els :
  FastLabelNode.disposed n = false →
  f <$> FastLabelNode.memo_write c n els !! FastLabelNode._element n =
  (λ e, f (FastLabelNode.update_of c e)) <$> els !! FastLabelNode._element n.
Proof.
  intros Hd. unfold FastLabelNode.memo_write. rewrite Hd. apply field_alter_eq.
Qed.

(** [reconcileBadge] changes the display and the children of the
    container and the badge element, nothing else. *)
Lemma field_paintBadge options this els i :
  (∀ v e, f (with_display v e) = f e) →
  (∀ c e, f (with_child c e) = f e) →
  i < length els →
  (∀ b, badgeNode this = Some b → b ≠ i) →
  f <$> paintBadge options this els !! i = f <$> els !! i.
Proof.
  intros Hdisp Hchild Hi Hb.
  unfold paintBadge, paintUpdate, paintCreate.
  destruct (badge_request options) as [[o b]|], (badgeNode this) as [node|];
    try destruct (color o);
    try (specialize (Hb _ eq_refl));
    rewrite ?(field_alter_ne f) by lia;
    rewrite ?(field_alter_frame f _ (element this)) by (intros; auto);
    rewrite ?(field_alter_ne f) by lia;
    rewrite ?(field_snoc f) by lia;
    reflexivity.
Qed.

End FieldFacts.

Ltac frame_step :=
  first [ rewrite field_alter_frame by (intros []; reflexivity)
        | rewrite field_memo_write_frame by (intros []; reflexivity) ].

Section SettledFacts.

Import IconLabel.

Variables (label description : option string) (options : option IIconLabelOptions).

Lemma setLabel_settles n w :
  match (setLabel label options n w).1 with
  | Plain f => FastLabelNode.skips (textCall label) f = true
  | Highlighted _ => True
  end.
Proof.
  destruct n as [f|hel]; simpl; [|exact I].
  pose proof (call_settles (textCall label) f w) as H.
  simpl in H. destruct (FastLabelNode.set_textContent _ f w). exact H.
Qed.

(** After a call, the same call would skip every memoized setter. *)
Lemma writeNodes_settles this w :
  settled label description options (writeNodes label description options this w).1.
Proof.
  rewrite writeNodes_eq. cbv zeta. unfold settled.
  cbn [fst snd domNode labelNode descriptionNode].
  repeat split.
  - rewrite call_keeps by exact I. apply call_settles.
  - apply call_settles.
  - apply setLabel_settles.
  - rewrite call_keeps by exact I. apply call_settles.
  - apply call_settles.
Qed.

Lemma setValue_widget this w :
  widget (setValue label description options this w) =
  with_badgeNode
    (badge_after options (writeNodes label description options this w).1
       (length (elements (writeNodes label description options this w).2)))
    (writeNodes label description options this w).1.
Proof. rewrite setValue_eq. apply reconcileBadge_run. Qed.

Lemma setValue_settles this w :
  settled label description options (widget (setValue label description options this w)).
Proof. rewrite setValue_widget. apply writeNodes_settles. Qed.

(** A settled label: [writeNodes] only assigns the color and hands the
    label text to the highlight collaborator. *)
Lemma writeNodes_settled this w :
  settled label description options this →
  let p := writeNodes label description options this w in
  p.1 = this ∧
  effects p.2 = (effects w ++ direct_writes label options this)%list ∧
  elements p.2 =
    match options with
    | Some o =>
        alter (with_color (colorText o))
          (element this) (elements w)
    | None => elements w
    end.
Proof.
  intros (Hc & Ht & Hl & Hs & He). rewrite writeNodes_eq. cbv zeta.
  rewrite (call_skips (classCall options)) by exact Hc. cbn [fst snd].
  rewrite (call_skips (titleCall options)) by exact Ht. cbn [fst snd].
  assert (Hlab : ∀ w', setLabel label options (labelNode this) w' =
            (labelNode this,
             mkWorld (elements w')
               (effects w' ++ match labelNode this with
                              | Highlighted el =>
                                  [HighlightSet el (text_of label) (options ≫= matches)]
                              | Plain _ => []
                              end)
               (listeners w') (next_listener w') (calls w'))).
  { intros w'. destruct (labelNode this) as [f|hel]; simpl; [|reflexivity].
    pose proof (call_skips (textCall label) f w' Hl) as Hk. simpl in Hk. rewrite Hk.
    rewrite app_nil_r. destruct w'; reflexivity. }
  rewrite Hlab. cbn [fst snd].
  rewrite (call_skips (textCall description)) by exact Hs. cbn [fst snd].
  rewrite (call_skips (emptyCall description)) by exact He. cbn [fst snd].
  unfold direct_writes. destruct this as [dn ln ds bn]. simpl.
  destruct options as [o|]; simpl; rewrite <- ?app_assoc; repeat split; reflexivity.
Qed.

End SettledFacts.

Lemma field_const {A} (f : Element → A) v (l : list Element) i :
  (∀ e, f e = v) → i < length l → f <$> l !! i = Some v.
Proof.
  intros Hf Hi. destruct (lookup_lt_is_Some_2 l i Hi) as [e ->]. simpl. f_equal. apply Hf.
Qed.

Lemma title_of_default options :
  IconLabel.title_of options = default "" (options ≫= IconLabel.title).
Proof.
  unfold IconLabel.title_of. destruct options as [o|]; [|reflexivity]. simpl.
  destruct (IconLabel.title o) as [[|a s]|]; reflexivity.
Qed.

Lemma text_of_default s : IconLabel.text_of s = default "" s.
Proof. destruct s as [[|a s]|]; reflexivity. Qed.

(** ** The claims about setValue *)

(** C8.  On a label whose container wrapper is not disposed, every
    [setValue] call leaves the container with the class list
    'monaco-icon-label', then the extra classes of the options, then
    'italic' exactly when the italic option is set, joined by spaces, and
    with the title of the options, or the empty string without one.  The
    value only depends on the options of this call, whatever calls came
    before. *)
Theorem setValue_recomputes_class_list (label description : option string)
    (options : option IconLabel.IIconLabelOptions) (this : IconLabel.t) (w : World)
    (Hwf : IconLabel.wf this (elements w))
    (Hlive : FastLabelNode.disposed (IconLabel.domNode this) = false) :
  let r := IconLabel.setValue label description options this w in
  Dom.get Dom.className (IconLabel.element this) (IconLabel.world r) =
    Some (Js.join " "
            (["monaco-icon-label"] ++
             default [] (options ≫= IconLabel.extraClasses) ++
             (if Js.truthy_bool (options ≫= IconLabel.italic) then ["italic"] else []))) ∧
  Dom.get Dom.title (IconLabel.element this) (IconLabel.world r) =
    Some (default "" (options ≫= IconLabel.title)).
Proof.
  cbv zeta. unfold Dom.get.
  destruct (setValue_spec label description options this w Hwf) as (E & _).
  cbv zeta in E. rewrite E. clear E.
  destruct Hwf as (Hlt & Hne & Hb & Hd & Hs & Hl).
  assert (Hbn : ∀ b, IconLabel.badgeNode this = Some b → b ≠ IconLabel.element this)
    by (intros b Eb; rewrite Eb in Hb; tauto).
  rewrite !field_paintBadge
    by (try rewrite length_paintNodes; solve [reflexivity | tauto | exact Hbn | intros ? []; reflexivity]).
  unfold IconLabel.paintNodes, IconLabel.paintLabel.
  assert (Hlen : IconLabel.element this <
                 length match options with
                        | Some o =>
                            alter (with_color (IconLabel.colorText o))
                              (IconLabel.element this) (elements w)
                        | None => elements w
                        end)
    by (destruct options; rewrite ?length_alter; apply Hlt).
  split.
  - (* the description, the label and the title leave the class alone *)
    repeat frame_step.
    destruct (IconLabel.labelNode this); repeat frame_step;
      unfold IconLabel.element, FastLabelNode.element in *;
      rewrite field_memo_write_eq by exact Hlive;
      (apply field_const; [|exact Hlen]);
      intros e; simpl; f_equal; unfold IconLabel.classes;
      destruct options; reflexivity.
  - repeat frame_step.
    destruct (IconLabel.labelNode this); repeat frame_step;
      unfold IconLabel.element, FastLabelNode.element in *;
      rewrite field_memo_write_eq by exact Hlive;
      (apply field_const; [|rewrite length_memo_write; exact Hlen]);
      intros e; simpl; apply title_of_default.
Qed.

Ltac by_computation := vm_compute; repeat split; try lia; try discriminate.

Lemma setValue_recomputes_class_list_witness :
  IconLabel.wf Sample.fresh.1 (elements Sample.fresh.2) ∧
  FastLabelNode.disposed (IconLabel.domNode Sample.fresh.1) = false ∧
  Dom.get Dom.className 1
    (IconLabel.world
       (IconLabel.setValue (Some "a.ts") None (Some Sample.modified)
          Sample.fresh.1 Sample.fresh.2))
  = Some "monaco-icon-label git dirty italic".
Proof.
  assert (H : IconLabel.wf Sample.fresh.1 (elements Sample.fresh.2)) by by_computation.
  split; [exact H|]. split; [reflexivity|].
  exact (proj1 (setValue_recomputes_class_list (Some "a.ts") None (Some Sample.modified)
                  Sample.fresh.1 Sample.fresh.2 H eq_refl)).
Defined.

(** C5.  On a label whose description wrapper is not disposed, a
    [setValue] call with an undefined or empty description leaves the
    description wrapper's empty flag true and the margin of its element
    '0'; a call with a non-empty description leaves the flag false and the
    margin cleared. *)
Theorem setValue_marks_empty_description (label description : option string)
    (options : option IconLabel.IIconLabelOptions) (this : IconLabel.t) (w : World)
    (Hwf : IconLabel.wf this (elements w))
    (Hlive : FastLabelNode.disposed (IconLabel.descriptionNode this) = false) :
  let r := IconLabel.setValue label description options this w in
  let node := IconLabel.descriptionNode (IconLabel.widget r) in
  (description = None ∨ description = Some "" →
   FastLabelNode._empty node = Some true ∧
   Dom.get Dom.marginLeft (FastLabelNode.element node) (IconLabel.world r) = Some (Some "0")) ∧
  (∀ s, description = Some s → s ≠ "" →
   FastLabelNode._empty node = Some false ∧
   Dom.get Dom.marginLeft (FastLabelNode.element node) (IconLabel.world r) = Some None).
Proof.
  cbv zeta.
  assert (Hflag : FastLabelNode._empty
                    (IconLabel.descriptionNode
                       (IconLabel.widget (IconLabel.setValue label description options this w)))
                  = Some (negb (Js.truthy description))).
  { pose proof (setValue_settles label description options this w) as (_ & _ & _ & _ & He).
    revert He. rewrite setValue_widget.
    destruct (writeNodes_ids label description options this w) as (_ & _ & _ & _ & _ & Hd & _).
    cbv zeta in Hd. cbn [IconLabel.with_badgeNode IconLabel.descriptionNode].
    unfold FastLabelNode.skips. rewrite Hd, Hlive. simpl.
    intros He. apply bool_decide_eq_true_1 in He. exact He. }
  assert (Hmargin : Dom.get Dom.marginLeft
                      (FastLabelNode.element
                         (IconLabel.descriptionNode
                            (IconLabel.widget
                               (IconLabel.setValue label description options this w))))
                      (IconLabel.world (IconLabel.setValue label description options this w))
                    = Some (if negb (Js.truthy description) then Some "0" else None)).
  { unfold Dom.get.
    destruct (setValue_spec label description options this w Hwf)
      as (E & _ & _ & _ & _ & _ & Is).
    cbv zeta in E, Is. rewrite E, Is. clear E Is.
    destruct Hwf as (Hlt & Hne & Hb & Hd & Hs & Hl).
    rewrite field_paintBadge;
      try rewrite length_paintNodes;
      try solve [reflexivity | tauto | intros ? []; reflexivity].
    2: { intros b Eb. rewrite Eb in Hb. tauto. }
    unfold IconLabel.paintNodes, FastLabelNode.element.
    rewrite field_memo_write_eq by exact Hlive.
    apply field_const; [intros e; reflexivity|].
    rewrite length_memo_write.
    unfold IconLabel.paintLabel.
    destruct (IconLabel.labelNode this), options;
      rewrite ?length_memo_write, ?length_alter; apply Hlt. }
  rewrite Hflag, Hmargin. split.
  - intros [-> | ->]; split; reflexivity.
  - intros [|a s] -> Hs; [contradiction|]. split; reflexivity.
Qed.

Lemma setValue_marks_empty_description_witness :
  IconLabel.wf Sample.fresh.1 (elements Sample.fresh.2) ∧
  FastLabelNode.disposed (IconLabel.descriptionNode Sample.fresh.1) = false ∧
  Dom.get Dom.marginLeft 3
    (IconLabel.world
       (IconLabel.setValue (Some "a.ts") (Some "") (Some Sample.modified)
          Sample.fresh.1 Sample.fresh.2))
  = Some (Some "0").
Proof.
  assert (H : IconLabel.wf Sample.fresh.1 (elements Sample.fresh.2)) by by_computation.
  split; [exact H|]. split; [reflexivity|].
  exact (proj2 (proj1 (setValue_marks_empty_description (Some "a.ts") (Some "")
                         (Some Sample.modified) Sample.fresh.1 Sample.fresh.2 H eq_refl)
                  (or_intror eq_refl))).
Defined.

(** ** The badge element over later calls *)

Section BadgeFacts.

Import IconLabel.

Lemma field_paintNodes {A} (f : Element → A) label description options this els i :
  wf this els → i ≠ element this → i ≠ labelElement this →
  i ≠ FastLabelNode.element (descriptionNode this) →
  f <$> paintNodes label description options this els !! i = f <$> els !! i.
Proof.
  intros _ H1 H2 H3.
  destruct this as [dn ln ds bn].
  unfold paintNodes, paintLabel, element, labelElement, FastLabelNode.element in *.
  cbn [domNode labelNode descriptionNode badgeNode] in *.
  rewrite !(field_memo_write_ne f) by lia.
  destruct ln as [lf|hel];
    rewrite ?(field_memo_write_ne f) by lia;
    destruct options; rewrite ?(field_alter_ne f) by lia; reflexivity.
Qed.

Lemma children_paintNodes label description options this els i :
  children <$> paintNodes label description options this els !! i = children <$> els !! i.
Proof.
  unfold paintNodes, paintLabel.
  repeat frame_step.
  destruct (labelNode this); repeat frame_step;
    destruct options; repeat frame_step; reflexivity.
Qed.

Lemma setValue_badge_stable label description options this w b :
  wf this (elements w) → badgeNode this = Some b →
  let r := setValue label description options this w in
  badge_stable b (this, w) (widget r, world r).
Proof.
  intros Hwf Hb. cbv zeta.
  destruct (setValue_spec label description options this w Hwf)
    as (E & _ & _ & Hbn & He & _).
  cbv zeta in *. unfold badge_stable, Dom.get. cbn [fst snd].
  rewrite E. clear E.
  pose proof Hwf as (Hlt & Hne & Hbw & _). rewrite Hb in Hbw.
  split; [|split; [exact He|split; [|split]]].
  - rewrite Hbn. unfold badge_after. rewrite Hb. destruct (badge_request options); reflexivity.
  - rewrite length_paintBadge, Hb, length_paintNodes.
    destruct (badge_request options); reflexivity.
  - rewrite <- (children_paintNodes label description options this (elements w)).
    unfold paintBadge, paintUpdate. rewrite Hb.
    destruct (badge_request options) as [[o bd]|]; repeat frame_step; reflexivity.
  - intros A f Hi Ht Hd.
    rewrite <- (field_paintNodes f label description options this (elements w) b Hwf)
      by tauto.
    unfold paintBadge, paintUpdate. rewrite Hb.
    destruct (badge_request options) as [[o bd]|];
      rewrite ?(field_alter_frame f) by auto; reflexivity.
Qed.

Lemma badge_stable_refl b s : badgeNode s.1 = Some b → badge_stable b s s.
Proof. intros H. unfold badge_stable. repeat split; auto. Qed.

Lemma badge_stable_trans b s1 s2 s3 :
  badge_stable b s1 s2 → badge_stable b s2 s3 → badge_stable b s1 s3.
Proof.
  intros (B1 & E1 & L1 & C1 & F1) (B2 & E2 & L2 & C2 & F2).
  unfold badge_stable. rewrite E2, E1, L2, L1. repeat split; try assumption.
  - rewrite <- C1, <- E1. exact C2.
  - intros A f Hi Ht Hd. rewrite (F2 A f Hi Ht Hd). apply F1; assumption.
Qed.

Lemma step_badge_stable op s b :
  wf s.1 (elements s.2) → badgeNode s.1 = Some b → badge_stable b s (step op s).
Proof.
  intros Hwf Hb. destruct op as [l d o|]; simpl.
  - destruct s as [this w]. apply (setValue_badge_stable l d o this w b Hwf Hb).
  - destruct (dispose_spec s.1 s.2) as (E & Hbn & He & _). cbv zeta in *.
    unfold badge_stable, Dom.get. rewrite E, Hbn, He. repeat split; auto.
Qed.

Lemma exec_badge_stable ops s b :
  wf s.1 (elements s.2) → badgeNode s.1 = Some b → badge_stable b s (exec ops s).
Proof.
  revert s. induction ops as [|op ops IH]; intros s Hwf Hb; simpl.
  - apply badge_stable_refl. exact Hb.
  - pose proof (step_badge_stable op s b Hwf Hb) as H1.
    eapply badge_stable_trans; [exact H1|].
    apply IH; [apply step_wf; exact Hwf|apply H1].
Qed.

End BadgeFacts.

(** C10.  Once a label holds a badge element, no later call changes the
    colors of that element: after any run of [setValue] and [dispose]
    calls, whatever colors their options carry, the label still holds the
    same badge element with the background and foreground color it had,
    and a [setValue] call that asks for a badge changes the letter, the
    title and the display of the badge element and nothing else of it. *)
Theorem badge_colors_are_set_once (this : IconLabel.t) (w : World) (b : nat)
    (ops : list IconLabel.Op)
    (Hwf : IconLabel.wf this (elements w))
    (Hb : IconLabel.badgeNode this = Some b) :
  let s := IconLabel.exec ops (this, w) in
  IconLabel.badgeNode s.1 = Some b ∧
  Dom.get Dom.backgroundColor b s.2 = Dom.get Dom.backgroundColor b w ∧
  Dom.get Dom.color b s.2 = Dom.get Dom.color b w ∧
  ∀ label description o bd,
    IconLabel.badge_request (Some o) = Some (o, bd) →
    let r := IconLabel.setValue label description (Some o) s.1 s.2 in
    elements (IconLabel.world r) !! b =
    (λ e, with_display DomHelpers.shown
            (with_title (IconLabel.badge_title bd)
               (with_innerHTML (IconLabel.letter bd) e))) <$> elements s.2 !! b.
Proof.
  cbv zeta.
  pose proof (exec_badge_stable ops (this, w) b Hwf Hb) as (Hb' & _ & _ & _ & Hf).
  pose proof (exec_wf ops (this, w) Hwf) as Hwf'.
  cbn [fst snd] in *.
  split; [exact Hb'|]. split; [|split].
  - apply Hf; intros v []; reflexivity.
  - apply Hf; intros v []; reflexivity.
  - intros label description o bd Hreq.
    set (s := IconLabel.exec ops (this, w)) in *.
    destruct (setValue_spec label description (Some o) s.1 s.2 Hwf') as (E & _).
    cbv zeta in E. rewrite E. clear E.
    unfold IconLabel.paintBadge, IconLabel.paintUpdate. rewrite Hreq, Hb'.
    rewrite !list_lookup_alter_eq.
    pose proof (field_paintNodes (λ e, e) label description (Some o) s.1 (elements s.2) b Hwf')
      as Hp.
    destruct Hwf' as (_ & _ & Hbw & _). rewrite Hb' in Hbw.
    rewrite !option_fmap_id in Hp. rewrite Hp by tauto.
    destruct (elements s.2 !! b); reflexivity.
Qed.

Lemma badge_colors_are_set_once_witness :
  IconLabel.wf Sample.badged.1 (elements Sample.badged.2) ∧
  IconLabel.badgeNode Sample.badged.1 = Some 4 ∧
  Dom.get Dom.backgroundColor 4
    (IconLabel.exec [IconLabel.OpSetValue (Some "b.ts") None (Some Sample.added)]
       (Sample.badged.1, Sample.badged.2)).2
  = Some "#ff0000".
Proof.
  assert (H : IconLabel.wf Sample.badged.1 (elements Sample.badged.2)) by by_computation.
  split; [exact H|]. split; [reflexivity|].
  destruct (badge_colors_are_set_once Sample.badged.1 Sample.badged.2 4
              [IconLabel.OpSetValue (Some "b.ts") None (Some Sample.added)] H eq_refl)
    as (_ & Hbg & _).
  etransitivity; [exact Hbg|reflexivity].
Defined.

Lemma setValue_badge_display label description options this w b :
  IconLabel.wf this (elements w) → IconLabel.badgeNode this = Some b →
  Dom.get Dom.display b
    (IconLabel.world (IconLabel.setValue label description options this w)) =
  Some (match IconLabel.badge_request options with
        | Some _ => DomHelpers.shown
        | None => DomHelpers.hidden
        end).
Proof.
  intros Hwf Hb.
  destruct (setValue_spec label description options this w Hwf) as (E & _).
  cbv zeta in E. unfold Dom.get. rewrite E. clear E.
  assert (Hlt : b < length (IconLabel.paintNodes label description options this (elements w))).
  { rewrite length_paintNodes. destruct Hwf as (_ & _ & Hbw & _).
    rewrite Hb in Hbw. tauto. }
  unfold IconLabel.paintBadge, IconLabel.paintUpdate. rewrite Hb.
  destruct (IconLabel.badge_request options) as [[o bd]|];
    rewrite field_alter_eq; apply field_const;
    rewrite ?length_alter; solve [reflexivity | exact Hlt].
Qed.

(** C3.  On a label without a badge element, a [setValue] call that asks
    for a badge and carries color C completes normally and creates exactly
    one element: a span of class 'label-badge', appended to the container,
    whose background is C, whose foreground is white when C is darker and
    black otherwise, and which is shown with the letter and title asked
    for.  After any later run of calls the label still holds that same
    element, no further element has been created and the element is still
    a child of the container; a call without a badge option leaves it
    hidden and a call with one leaves it shown. *)
Theorem badge_is_created_once (label description : option string)
    (o : IconLabel.IIconLabelOptions) (bd : IconLabel.Badge) (c : Color.t)
    (this : IconLabel.t) (w : World)
    (Hwf : IconLabel.wf this (elements w))
    (Hnone : IconLabel.badgeNode this = None)
    (Hbadge : IconLabel.badge o = Some bd)
    (Hcolor : IconLabel.color o = Some c) :
  let r := IconLabel.setValue label description (Some o) this w in
  let b := length (elements w) in
  IconLabel.completion r = IconLabel.Normal ∧
  IconLabel.badgeNode (IconLabel.widget r) = Some b ∧
  length (elements (IconLabel.world r)) = S (length (elements w)) ∧
  elements (IconLabel.world r) !! b =
    Some (mkElement "span" "label-badge" "" (IconLabel.badge_title bd) (IconLabel.letter bd)
            None
            (Color.toString (if Color.isDarker c then Color.white else Color.black))
            (Color.toString c) DomHelpers.shown []) ∧
  Dom.get children (IconLabel.element this) (IconLabel.world r) =
    (λ cs, cs ++ [b])%list <$> Dom.get children (IconLabel.element this) w ∧
  ∀ ops,
    let s := IconLabel.exec ops (IconLabel.widget r, IconLabel.world r) in
    IconLabel.badgeNode s.1 = Some b ∧
    length (elements s.2) = S (length (elements w)) ∧
    Dom.get children (IconLabel.element this) s.2 =
      Dom.get children (IconLabel.element this) (IconLabel.world r) ∧
    ∀ label' description' options',
      let r' := IconLabel.setValue label' description' options' s.1 s.2 in
      IconLabel.badgeNode (IconLabel.widget r') = Some b ∧
      length (elements (IconLabel.world r')) = S (length (elements w)) ∧
      Dom.get Dom.display b (IconLabel.world r') =
        Some (match IconLabel.badge_request options' with
              | Some _ => DomHelpers.shown
              | None => DomHelpers.hidden
              end).
Proof.
  cbv zeta.
  destruct (setValue_spec label description (Some o) this w Hwf)
    as (E & Hwf1 & Hc & Hbn & He & _).
  cbv zeta in *.
  set (r := IconLabel.setValue label description (Some o) this w) in *.
  assert (Hreq : IconLabel.badge_request (Some o) = Some (o, bd))
    by (simpl; rewrite Hbadge; reflexivity).
  assert (Hb1 : IconLabel.badgeNode (IconLabel.widget r) = Some (length (elements w))).
  { rewrite Hbn. unfold IconLabel.badge_after. rewrite Hreq, Hnone. reflexivity. }
  assert (Hlen1 : length (elements (IconLabel.world r)) = S (length (elements w))).
  { rewrite E, length_paintBadge, Hreq, Hnone, length_paintNodes. reflexivity. }
  pose proof Hwf as ((Hlt & _) & _).
  set (els := IconLabel.paintNodes label description (Some o) this (elements w)) in *.
  assert (Hl : length els = length (elements w)) by apply length_paintNodes.
  assert (Ecreate : elements (IconLabel.world r) =
                    IconLabel.paintUpdate bd (length els) (IconLabel.paintCreate c this els)).
  { rewrite E. unfold IconLabel.paintBadge. rewrite Hreq, Hnone, Hcolor. reflexivity. }
  split; [|split; [exact Hb1|split; [exact Hlen1|split; [|split]]]].
  - rewrite Hc. unfold IconLabel.completion_of. rewrite Hreq, Hnone, Hcolor. reflexivity.
  - rewrite Ecreate, <- Hl. unfold IconLabel.paintUpdate, IconLabel.paintCreate.
    rewrite !list_lookup_alter_eq.
    rewrite !list_lookup_alter_ne by lia.
    rewrite !list_lookup_alter_eq.
    rewrite list_lookup_middle by reflexivity. reflexivity.
  - unfold Dom.get. rewrite Ecreate. unfold IconLabel.paintUpdate, IconLabel.paintCreate.
    rewrite !(field_alter_ne children) by lia.
    rewrite field_alter_eq.
    repeat frame_step.
    rewrite lookup_app_l by lia.
    pose proof (children_paintNodes label description (Some o) this (elements w)
                  (IconLabel.element this)) as Hch.
    fold els in Hch.
    destruct (els !! IconLabel.element this), (elements w !! IconLabel.element this);
      simpl in *; congruence.
  - intros ops.
    pose proof (exec_badge_stable ops (IconLabel.widget r, IconLabel.world r) _ Hwf1 Hb1)
      as (Hb' & He' & Hlen' & Hch' & _).
    pose proof (exec_wf ops (IconLabel.widget r, IconLabel.world r) Hwf1) as Hwf'.
    set (s := IconLabel.exec ops (IconLabel.widget r, IconLabel.world r)) in *.
    cbn [fst snd] in *.
    split; [exact Hb'|]. split; [lia|]. split; [rewrite <- He; exact Hch'|].
    intros label' description' options'.
    pose proof (setValue_badge_stable label' description' options' s.1 s.2 _ Hwf' Hb')
      as (Hb'' & _ & Hlen'' & _).
    cbn [fst snd] in *.
    split; [exact Hb''|]. split; [lia|].
    apply setValue_badge_display; assumption.
Qed.

Lemma badge_is_created_once_witness :
  IconLabel.wf Sample.fresh.1 (elements Sample.fresh.2) ∧
  IconLabel.badgeNode Sample.fresh.1 = None ∧
  IconLabel.badge Sample.modified = Some (IconLabel.mkBadge "M" "Modified") ∧
  IconLabel.color Sample.modified = Some Sample.red ∧
  elements
    (IconLabel.world
       (IconLabel.setValue (Some "a.ts") None (Some Sample.modified)
          Sample.fresh.1 Sample.fresh.2)) !! 4
  = Some (mkElement "span" "label-badge" "" "Modified" "M" None "#ffffff" "#ff0000" "" []).
Proof.
  assert (H : IconLabel.wf Sample.fresh.1 (elements Sample.fresh.2)) by by_computation.
  split; [exact H|]. repeat (split; [reflexivity|]).
  destruct (badge_is_created_once (Some "a.ts") None Sample.modified
              (IconLabel.mkBadge "M" "Modified") Sample.red
              Sample.fresh.1 Sample.fresh.2 H eq_refl eq_refl eq_refl)
    as (_ & _ & _ & Hel & _).
  exact Hel.
Defined.

(** ** The text color *)

Section ColorFacts.

Import IconLabel.

Lemma call_effects c n w :
  effects (FastLabelNode.call c n w).2 =
  (effects w ++
   if FastLabelNode.skips c n then [] else [FastLabelNode.effect_of c (FastLabelNode._element n)])%list.
Proof.
  unfold FastLabelNode.skips.
  destruct c; simpl;
    unfold FastLabelNode.set_textContent, FastLabelNode.set_className,
      FastLabelNode.set_title, FastLabelNode.set_empty;
    destruct (FastLabelNode.disposed n || _); simpl; rewrite ?app_nil_r; reflexivity.
Qed.

Lemma call_quiet c n w :
  ∃ evs, effects (FastLabelNode.call c n w).2 = (effects w ++ evs)%list ∧ quiet evs.
Proof.
  rewrite call_effects. eexists. split; [reflexivity|].
  destruct (FastLabelNode.skips c n); [constructor|].
  constructor; [destruct c; reflexivity|constructor].
Qed.

Lemma setLabel_quiet label options n w :
  ∃ evs, effects (setLabel label options n w).2 = (effects w ++ evs)%list ∧ quiet evs.
Proof.
  destruct n as [f|hel]; simpl.
  - destruct (call_quiet (textCall label) f w) as (evs & E & Q).
    simpl in E. destruct (FastLabelNode.set_textContent _ f w). eauto.
  - eexists. split; [reflexivity|]. constructor; [reflexivity|constructor].
Qed.

(** Apart from the assignment that opens it, [writeNodes] writes no
    color. *)
Lemma writeNodes_quiet label description options this w :
  ∃ evs,
    effects (writeNodes label description options this w).2 =
      (effects w ++
       match options with
       | Some o =>
           [SetColor (element this)
              (colorText o)]
       | None => []
       end ++ evs)%list ∧
    quiet evs.
Proof.
  rewrite writeNodes_eq. cbv zeta. cbn [snd].
  match goal with
  | |- context [FastLabelNode.call (classCall options) (domNode this) ?w0] => set (w1 := w0)
  end.
  assert (E0 : effects w1 =
               (effects w ++
                match options with
                | Some o =>
                    [SetColor (element this)
                       (colorText o)]
                | None => []
                end)%list)
    by (unfold w1; destruct options; simpl; rewrite ?app_nil_r; reflexivity).
  clearbody w1.
  destruct (call_quiet (classCall options) (domNode this) w1) as (e1 & E1 & Q1).
  set (p1 := FastLabelNode.call (classCall options) (domNode this) w1) in *.
  destruct (call_quiet (titleCall options) p1.1 p1.2) as (e2 & E2 & Q2).
  set (p2 := FastLabelNode.call (titleCall options) p1.1 p1.2) in *.
  destruct (setLabel_quiet label options (labelNode this) p2.2) as (e3 & E3 & Q3).
  set (p3 := setLabel label options (labelNode this) p2.2) in *.
  destruct (call_quiet (textCall description) (descriptionNode this) p3.2) as (e4 & E4 & Q4).
  set (p4 := FastLabelNode.call (textCall description) (descriptionNode this) p3.2) in *.
  destruct (call_quiet (emptyCall description) p4.1 p4.2) as (e5 & E5 & Q5).
  exists (e1 ++ e2 ++ e3 ++ e4 ++ e5)%list. split.
  - rewrite E5, E4, E3, E2, E1, E0. rewrite <- !app_assoc. reflexivity.
  - unfold quiet in *. rewrite !Forall_app. tauto.
Qed.

(** The color of the container after a call. *)
Lemma setValue_color label description options this w :
  wf this (elements w) →
  Dom.get Dom.color (element this)
    (world (setValue label description options this w)) =
  match options with
  | Some o => Some (colorText o)
  | None => Dom.get Dom.color (element this) w
  end.
Proof.
  intros Hwf.
  destruct (setValue_spec label description options this w Hwf) as (E & _).
  cbv zeta in E. unfold Dom.get. rewrite E. clear E.
  destruct Hwf as ((Hlt & _) & _ & Hb & _).
  rewrite field_paintBadge;
    try rewrite length_paintNodes;
    try solve [reflexivity | tauto | intros ? []; reflexivity].
  2: { intros b Eb. rewrite Eb in Hb. tauto. }
  unfold paintNodes, paintLabel.
  repeat frame_step.
  destruct (labelNode this); repeat frame_step;
    (destruct options as [o|]; [|reflexivity]);
    rewrite field_alter_eq; apply field_const; solve [reflexivity | exact Hlt].
Qed.

End ColorFacts.

(** C9.  A [setValue] call without an options argument leaves the text
    color of the container as it was and performs no assignment to a
    color at all; so the color a previous call applied is still there
    after it. *)
Theorem setValue_without_options_keeps_color (label description : option string)
    (this : IconLabel.t) (w : World)
    (Hwf : IconLabel.wf this (elements w)) :
  let r := IconLabel.setValue label description None this w in
  Dom.get Dom.color (IconLabel.element this) (IconLabel.world r) =
    Dom.get Dom.color (IconLabel.element this) w ∧
  (∃ evs, effects (IconLabel.world r) = (effects w ++ evs)%list ∧
          Forall (λ ev, IconLabel.is_color_write ev = false) evs) ∧
  ∀ label0 description0 o c,
    IconLabel.color o = Some c →
    let r1 := IconLabel.setValue label0 description0 (Some o) this w in
    let r2 := IconLabel.setValue label description None (IconLabel.widget r1) (IconLabel.world r1) in
    Dom.get Dom.color (IconLabel.element this) (IconLabel.world r2) = Some (Color.toString c).
Proof.
  cbv zeta. split; [|split].
  - apply (setValue_color label description None this w Hwf).
  - rewrite setValue_eq.
    destruct (writeNodes_quiet label description None this w) as (evs & E & Q).
    destruct (reconcileBadge_run None
                (IconLabel.writeNodes label description None this w).1
                (IconLabel.writeNodes label description None this w).2)
      as (_ & _ & _ & Ee & _).
    rewrite Ee, E. simpl.
    exists (evs ++ IconLabel.badge_effects None
                     (IconLabel.writeNodes label description None this w).1
                     (length (elements (IconLabel.writeNodes label description None this w).2)))%list.
    split; [rewrite <- app_assoc; reflexivity|].
    apply Forall_app. split; [exact Q|].
    unfold IconLabel.badge_effects, IconLabel.badge_rewrites. simpl.
    destruct (IconLabel.badgeNode _); repeat constructor.
  - intros label0 description0 o c Hc.
    destruct (setValue_spec label0 description0 (Some o) this w Hwf)
      as (_ & Hwf1 & _ & _ & He & _).
    cbv zeta in *.
    pose proof (setValue_color label description None _ _ Hwf1) as H2.
    rewrite He in H2. rewrite H2.
    rewrite (setValue_color label0 description0 (Some o) this w Hwf).
    unfold IconLabel.colorText. rewrite Hc. reflexivity.
Qed.

Lemma setValue_without_options_keeps_color_witness :
  IconLabel.wf Sample.fresh.1 (elements Sample.fresh.2) ∧
  Dom.get Dom.color 1
    (IconLabel.world
       (IconLabel.setValue (Some "a.ts") None None
          (IconLabel.widget
             (IconLabel.setValue (Some "a.ts") None (Some Sample.colored)
                Sample.fresh.1 Sample.fresh.2))
          (IconLabel.world
             (IconLabel.setValue (Some "a.ts") None (Some Sample.colored)
                Sample.fresh.1 Sample.fresh.2))))
  = Some "#ff0000".
Proof.
  assert (H : IconLabel.wf Sample.fresh.1 (elements Sample.fresh.2)) by by_computation.
  split; [exact H|].
  destruct (setValue_without_options_keeps_color (Some "a.ts") None
              Sample.fresh.1 Sample.fresh.2 H) as (_ & _ & Hc).
  exact (Hc (Some "a.ts") None Sample.colored Sample.red eq_refl).
Defined.

(** ** Calling setValue twice *)

Section RepeatFacts.

Import IconLabel.

Lemma alter_with_same {A} (f : Element → A) (g : A → Element → Element) v i
    (l : list Element) :
  (∀ e, f e = v → g v e = e) → f <$> l !! i = Some v → alter (g v) i l = l.
Proof.
  intros Hg Hl. destruct (l !! i) as [e|] eqn:E; [|discriminate].
  simpl in Hl. eapply alter_same; [exact E|]. apply Hg. congruence.
Qed.

Lemma paintUpdate_same bd b (l : list Element) :
  Dom.innerHTML <$> l !! b = Some (letter bd) →
  Dom.title <$> l !! b = Some (badge_title bd) →
  Dom.display <$> l !! b = Some DomHelpers.shown →
  paintUpdate bd b l = l.
Proof.
  intros Hi Ht Hd. unfold paintUpdate.
  rewrite (alter_with_same Dom.innerHTML with_innerHTML)
    by (try exact Hi; intros [] <-; reflexivity).
  rewrite (alter_with_same Dom.title with_title)
    by (try exact Ht; intros [] <-; reflexivity).
  apply (alter_with_same Dom.display with_display);
    [intros [] <-; reflexivity|exact Hd].
Qed.

Lemma paintUpdate_fields bd b (l : list Element) :
  b < length l →
  Dom.innerHTML <$> paintUpdate bd b l !! b = Some (letter bd) ∧
  Dom.title <$> paintUpdate bd b l !! b = Some (badge_title bd) ∧
  Dom.display <$> paintUpdate bd b l !! b = Some DomHelpers.shown.
Proof.
  intros Hb. unfold paintUpdate. repeat split.
  - repeat frame_step. rewrite field_alter_eq. apply field_const; [reflexivity|exact Hb].
  - repeat frame_step. rewrite field_alter_eq. apply field_const; [reflexivity|].
    rewrite length_alter. exact Hb.
  - rewrite field_alter_eq. apply field_const; [reflexivity|].
    rewrite !length_alter. exact Hb.
Qed.

(** After a call that completed normally, the badge element the label
    holds is as the call asked: updated and shown, or hidden. *)
Lemma paintBadge_same options this els :
  wf this els → completion_of options this = Normal →
  let this' := with_badgeNode (badge_after options this (length els)) this in
  paintBadge options this' (paintBadge options this els) = paintBadge options this els.
Proof.
  intros (_ & _ & Hb & _) Hc. cbv zeta.
  unfold paintBadge at 1. unfold badge_after, completion_of in *.
  cbn [with_badgeNode badgeNode].
  destruct (badge_request options) as [[o bd]|] eqn:Hreq,
           (badgeNode this) as [b|] eqn:Hbn.
  - unfold paintBadge. rewrite Hreq, Hbn.
    destruct (paintUpdate_fields bd b els) as (Hi & Ht & Hd); [tauto|].
    apply paintUpdate_same; assumption.
  - unfold paintBadge. rewrite Hreq, Hbn.
    destruct (color o) as [c|]; [|discriminate].
    destruct (paintUpdate_fields bd (length els) (paintCreate c this els))
      as (Hi & Ht & Hd).
    { unfold paintCreate. rewrite !length_alter, length_app. simpl. lia. }
    apply paintUpdate_same; assumption.
  - unfold paintBadge. rewrite Hreq, Hbn.
    apply (alter_with_same Dom.display with_display); [intros [] <-; reflexivity|].
    rewrite field_alter_eq. apply field_const; [reflexivity|tauto].
  - reflexivity.
Qed.

Lemma badge_after_held options this n :
  let this' := with_badgeNode (badge_after options this n) this in
  ∀ m, badge_after options this' m = badge_after options this n ∧
       badge_effects options this' m = badge_rewrites options this' ∧
       completion_of options this' = Normal.
Proof.
  cbv zeta. intros m. unfold badge_after, badge_effects, badge_rewrites, completion_of.
  cbn [with_badgeNode badgeNode].
  destruct (badge_request options) as [[o bd]|], (badgeNode this); repeat split.
Qed.

End RepeatFacts.

(** C1, as the code has it.  A [setValue] call repeated with the
    arguments of the call just before it completes normally, leaves the
    label as it was and performs no memoized write: its effects are the
    assignment of the container's text color when an options object is
    given, the hand-over of the label text to the highlight collaborator
    on a label with highlight support, and the update (letter, title,
    display) or hiding of the badge element the label holds.  These
    assignments repeat the values already there: when the first call
    completed normally the elements after the second call are the
    elements after the first. *)
Theorem repeated_setValue_skips_memoized_writes (label description : option string)
    (options : option IconLabel.IIconLabelOptions) (this : IconLabel.t) (w : World) :
  let r1 := IconLabel.setValue label description options this w in
  let r2 :=
    IconLabel.setValue label description options (IconLabel.widget r1) (IconLabel.world r1) in
  IconLabel.completion r2 = IconLabel.Normal ∧
  IconLabel.widget r2 = IconLabel.widget r1 ∧
  effects (IconLabel.world r2) =
    (effects (IconLabel.world r1) ++
     IconLabel.direct_writes label options (IconLabel.widget r1) ++
     IconLabel.badge_rewrites options (IconLabel.widget r1))%list ∧
  (IconLabel.wf this (elements w) →
   IconLabel.completion r1 = IconLabel.Normal →
   elements (IconLabel.world r2) = elements (IconLabel.world r1)).
Proof.
  cbv zeta.
  pose proof (setValue_settles label description options this w) as Hs.
  pose proof (setValue_widget label description options this w) as Hw.
  set (r1 := IconLabel.setValue label description options this w) in *.
  set (p := IconLabel.writeNodes label description options this w) in *.
  rewrite (setValue_eq label description options (IconLabel.widget r1) (IconLabel.world r1)).
  destruct (writeNodes_settled label description options (IconLabel.widget r1)
              (IconLabel.world r1) Hs) as (E1 & E2 & E3).
  cbv zeta in *.
  set (q := IconLabel.writeNodes label description options (IconLabel.widget r1)
              (IconLabel.world r1)) in *.
  destruct (reconcileBadge_run options q.1 q.2) as (Hc & Hw2 & He & Hf & _).
  rewrite E1 in *.
  destruct (badge_after_held options p.1 (length (elements p.2)) (length (elements q.2)))
    as (Ha & Hb & Hn).
  cbv zeta in *. rewrite <- Hw in *.
  split; [rewrite Hc; exact Hn|].
  split; [rewrite Hw2, Ha; rewrite Hw at 2; rewrite Hw; reflexivity|].
  split; [rewrite Hf, E2, Hb, <- app_assoc; reflexivity|].
  intros Hwf Hc1.
  destruct (setValue_spec label description options this w Hwf)
    as (Ee & Hwf1 & Hc1' & _ & Hel & _).
  cbv zeta in *. fold r1 in Ee, Hwf1, Hc1', Hel.
  rewrite He, E3.
  assert (Hcol : match options with
                 | Some o =>
                     alter (with_color
                              (IconLabel.colorText o))
                       (IconLabel.element (IconLabel.widget r1))
                       (elements (IconLabel.world r1))
                 | None => elements (IconLabel.world r1)
                 end = elements (IconLabel.world r1)).
  { pose proof (setValue_color label description options this w Hwf) as Hcolor.
    fold r1 in Hcolor. rewrite Hel.
    destruct options as [o|]; [|reflexivity].
    apply (alter_with_same Dom.color with_color); [intros [] <-; reflexivity|exact Hcolor]. }
  rewrite Hcol.
  destruct (writeNodes_spec label description options this w Hwf) as (Ep & Hwfp).
  destruct (reconcileBadge_run options p.1 p.2) as (Hcp & _ & Hep & _).
  cbv zeta in *. fold p in Ep, Hwfp.
  assert (Er : r1 = IconLabel.reconcileBadge options p.1 p.2)
    by apply setValue_eq.
  rewrite <- Er in Hcp, Hep.
  rewrite Hw, Hep.
  apply paintBadge_same; [exact Hwfp|]. rewrite <- Hcp. exact Hc1.
Qed.

Lemma repeated_setValue_skips_memoized_writes_witness :
  IconLabel.wf Sample.fresh.1 (elements Sample.fresh.2) ∧
  let r1 := IconLabel.setValue (Some "main.ts") (Some "/src") None Sample.fresh.1 Sample.fresh.2 in
  let r2 :=
    IconLabel.setValue (Some "main.ts") (Some "/src") None
      (IconLabel.widget r1) (IconLabel.world r1) in
  IconLabel.completion r1 = IconLabel.Normal ∧
  elements (IconLabel.world r2) = elements (IconLabel.world r1).
Proof.
  assert (H : IconLabel.wf Sample.fresh.1 (elements Sample.fresh.2)) by by_computation.
  split; [exact H|]. split; [reflexivity|].
  destruct (repeated_setValue_skips_memoized_writes (Some "main.ts") (Some "/src") None
              Sample.fresh.1 Sample.fresh.2) as (_ & _ & _ & Hel).
  exact (Hel H eq_refl).
Defined.

(** C1, as the specification states it, fails: the second of two
    identical calls that carry a color and a badge assigns the color, the
    letter, the title and the display again. *)
Lemma repeated_setValue_writes_again :
  let r1 :=
    IconLabel.setValue (Some "a.ts") None (Some Sample.modified)
      Sample.fresh.1 Sample.fresh.2 in
  let r2 :=
    IconLabel.setValue (Some "a.ts") None (Some Sample.modified)
      (IconLabel.widget r1) (IconLabel.world r1) in
  effects (IconLabel.world r2) =
    (effects (IconLabel.world r1) ++
     [SetColor 1 "#ff0000"; SetInnerHTML 4 "M"; SetTitle 4 "Modified"; SetDisplay 4 ""])%list ∧
  effects (IconLabel.world r2) ≠ effects (IconLabel.world r1).
Proof.
  split; [vm_compute; reflexivity|].
  intros H. apply (f_equal length) in H. vm_compute in H. discriminate.
Qed.

(** ** Calls after dispose *)

Section DisposedFacts.

Import IconLabel.

Lemma dispose_disposed_all this w : disposed_all (dispose this w).1.
Proof. unfold dispose, disposed_all. destruct (labelNode this); simpl; tauto. Qed.

Lemma disposed_all_settled label description options this :
  disposed_all this → settled label description options this.
Proof.
  unfold disposed_all, settled, FastLabelNode.skips. intros (-> & -> & Hl).
  destruct (labelNode this); [rewrite Hl|]; simpl; tauto.
Qed.

Lemma step_disposed_all op s : disposed_all s.1 → disposed_all (step op s).1.
Proof.
  intros H. destruct op as [l d o|]; simpl; [|apply dispose_disposed_all].
  rewrite setValue_widget.
  destruct (writeNodes_settled l d o s.1 s.2 (disposed_all_settled l d o s.1 H)) as (-> & _).
  exact H.
Qed.

Lemma exec_disposed_all ops s : disposed_all s.1 → disposed_all (exec ops s).1.
Proof.
  revert s. induction ops as [|op ops IH]; intros s H; simpl; [exact H|].
  apply IH. apply step_disposed_all. exact H.
Qed.

End DisposedFacts.

(** C2, as the code has it.  After [dispose], whatever calls follow, a
    [setValue] call performs none of the memoized writes: it leaves the
    three wrappers as they are, and its effects are the assignment of the
    container's text color when an options object is given, the hand-over
    to the highlight collaborator on a label with highlight support, and
    the creation, update or hiding of the badge element.  It ends with a
    TypeError exactly when it asks for a badge without a color while the
    label holds no badge element. *)
Theorem setValue_after_dispose (this : IconLabel.t) (w : World) (ops : list IconLabel.Op)
    (label description : option string) (options : option IconLabel.IIconLabelOptions) :
  let s := IconLabel.exec ops (IconLabel.dispose this w) in
  let r := IconLabel.setValue label description options s.1 s.2 in
  IconLabel.domNode (IconLabel.widget r) = IconLabel.domNode s.1 ∧
  IconLabel.labelNode (IconLabel.widget r) = IconLabel.labelNode s.1 ∧
  IconLabel.descriptionNode (IconLabel.widget r) = IconLabel.descriptionNode s.1 ∧
  effects (IconLabel.world r) =
    (effects s.2 ++
     IconLabel.direct_writes label options s.1 ++
     IconLabel.badge_effects options s.1 (length (elements s.2)))%list ∧
  IconLabel.completion r = IconLabel.completion_of options s.1.
Proof.
  cbv zeta.
  pose proof (exec_disposed_all ops (IconLabel.dispose this w)
                (dispose_disposed_all this w)) as Hd.
  set (s := IconLabel.exec ops (IconLabel.dispose this w)) in *.
  pose proof (disposed_all_settled label description options s.1 Hd) as Hs.
  destruct (writeNodes_settled label description options s.1 s.2 Hs) as (E1 & E2 & E3).
  cbv zeta in *.
  rewrite setValue_eq.
  set (q := IconLabel.writeNodes label description options s.1 s.2) in *.
  destruct (reconcileBadge_run options q.1 q.2) as (Hc & Hw & _ & Hf & _).
  assert (Hlen : length (elements q.2) = length (elements s.2))
    by (rewrite E3; destruct options; rewrite ?length_alter; reflexivity).
  rewrite Hw, Hc, Hf, Hlen, E1, E2, <- app_assoc.
  repeat split.
Qed.

(** C2, as the specification states it, fails: after [dispose] a call
    that carries a color still assigns it to the container, and a call
    that asks for a badge without a color ends with a TypeError after it
    created the badge element. *)
Lemma setValue_after_dispose_still_writes :
  let r := IconLabel.setValue None None (Some Sample.colored)
             Sample.disposed.1 Sample.disposed.2 in
  let r' := IconLabel.setValue None None (Some Sample.badge_only)
              Sample.disposed.1 Sample.disposed.2 in
  Dom.get Dom.color 1 Sample.disposed.2 = Some "" ∧
  Dom.get Dom.color 1 (IconLabel.world r) = Some "#ff0000" ∧
  effects (IconLabel.world r) = (effects Sample.disposed.2 ++ [SetColor 1 "#ff0000"])%list ∧
  IconLabel.world r ≠ Sample.disposed.2 ∧
  IconLabel.completion r' = IconLabel.TypeError ∧
  effects (IconLabel.world r') =
    (effects Sample.disposed.2 ++
     [SetColor 1 ""; CreateElement 4 "span"; SetClassName 4 "label-badge"])%list.
Proof. vm_compute. repeat split. discriminate. Qed.

(** ** Click listeners *)

Section ClickFacts.

Import IconLabel Lifecycle.

Lemma filter_all {A} (P : A → Prop) `{∀ x, Decision (P x)} (l : list A) :
  Forall P l → filter P l = l.
Proof.
  induction 1 as [|x l Hx _ IH]; [reflexivity|].
  rewrite filter_cons_True by exact Hx. rewrite IH. reflexivity.
Qed.

Lemma onClick_eq callback this w :
  onClick callback this w =
  ([next_listener w; S (next_listener w)],
   mkWorld (elements w) (effects w)
     (listeners w ++
      [mkListener (next_listener w) (labelElement this) "click" callback;
       mkListener (S (next_listener w)) (FastLabelNode.element (descriptionNode this))
         "click" callback])
     (S (S (next_listener w))) (calls w)).
Proof.
  unfold onClick, addDisposableListener, combinedDisposable. simpl.
  rewrite <- app_assoc. reflexivity.
Qed.

Lemma click_after_onClick callback this w target :
  calls (click target (onClick callback this w).2) =
  (calls (click target w) ++
   (if decide (labelElement this = target) then [callback] else []) ++
   (if decide (FastLabelNode.element (descriptionNode this) = target) then [callback] else []))%list.
Proof.
  rewrite onClick_eq. unfold click, reached. simpl.
  rewrite filter_app, fmap_app, <- app_assoc. f_equal. f_equal.
  rewrite filter_cons, filter_cons, filter_nil. simpl.
  repeat case_decide; simpl; try reflexivity; exfalso; tauto.
Qed.

End ClickFacts.

(** C7.  [onClick] registers one click listener on the label element and
    one on the description element: afterwards a click on either element
    invokes the callback exactly once more than it did before, and a click
    anywhere else invokes what it did before.  The one handle it returns
    detaches both: after its disposal the listeners are those there were
    before [onClick], and a click on any element invokes what it did
    before. *)
Theorem onClick_invokes_once_per_click (callback : nat) (this : IconLabel.t) (w : World)
    (Hne : IconLabel.labelElement this ≠
           FastLabelNode.element (IconLabel.descriptionNode this))
    (Hok : Lifecycle.listeners_ok w) :
  let handle := (IconLabel.onClick callback this w).1 in
  let w1 := (IconLabel.onClick callback this w).2 in
  calls (Lifecycle.click (IconLabel.labelElement this) w1) =
    (calls (Lifecycle.click (IconLabel.labelElement this) w) ++ [callback])%list ∧
  calls (Lifecycle.click (FastLabelNode.element (IconLabel.descriptionNode this)) w1) =
    (calls (Lifecycle.click (FastLabelNode.element (IconLabel.descriptionNode this)) w)
     ++ [callback])%list ∧
  (∀ target,
     target ≠ IconLabel.labelElement this →
     target ≠ FastLabelNode.element (IconLabel.descriptionNode this) →
     calls (Lifecycle.click target w1) = calls (Lifecycle.click target w)) ∧
  listeners (Lifecycle.dispose handle w1) = listeners w ∧
  ∀ target,
    calls (Lifecycle.click target (Lifecycle.dispose handle w1)) =
    calls (Lifecycle.click target w).
Proof.
  cbv zeta.
  assert (Hd : listeners (Lifecycle.dispose (IconLabel.onClick callback this w).1
                            (IconLabel.onClick callback this w).2) = listeners w).
  { rewrite onClick_eq. unfold Lifecycle.dispose. simpl.
    rewrite filter_app, filter_cons, filter_cons, filter_nil. simpl.
    rewrite !decide_False by (intros Hn; apply Hn; rewrite !elem_of_cons; auto).
    rewrite app_nil_r. apply filter_all.
    eapply Forall_impl; [exact Hok|]. simpl. intros l Hl.
    rewrite !not_elem_of_cons. split; [lia|]. split; [lia|]. apply not_elem_of_nil. }
  split; [|split; [|split; [|split]]].
  - rewrite click_after_onClick.
    rewrite decide_True by reflexivity. rewrite decide_False by (intros E; apply Hne; auto).
    reflexivity.
  - rewrite click_after_onClick.
    rewrite decide_False by exact Hne. rewrite decide_True by reflexivity. reflexivity.
  - intros target H1 H2. rewrite click_after_onClick.
    rewrite !decide_False by (intros E; auto). rewrite app_nil_r. reflexivity.
  - exact Hd.
  - intros target. unfold Lifecycle.click, Lifecycle.reached. rewrite Hd.
    rewrite onClick_eq. reflexivity.
Qed.

Lemma onClick_invokes_once_per_click_witness :
  IconLabel.labelElement Sample.fresh.1 ≠
    FastLabelNode.element (IconLabel.descriptionNode Sample.fresh.1) ∧
  Lifecycle.listeners_ok Sample.fresh.2 ∧
  calls (Lifecycle.click 2 (IconLabel.onClick 7 Sample.fresh.1 Sample.fresh.2).2) = [7].
Proof.
  assert (Hne : IconLabel.labelElement Sample.fresh.1 ≠
                FastLabelNode.element (IconLabel.descriptionNode Sample.fresh.1))
    by (vm_compute; lia).
  assert (Hok : Lifecycle.listeners_ok Sample.fresh.2) by (vm_compute; constructor).
  split; [exact Hne|]. split; [exact Hok|].
  destruct (onClick_invokes_once_per_click 7 Sample.fresh.1 Sample.fresh.2 Hne Hok)
    as (Hc & _).
  etransitivity; [exact Hc|reflexivity].
Defined.

(** ** File labels *)

Section TextFacts.

Import IconLabel.

Variables (label description : option string) (options : option IIconLabelOptions).

(** The texts and the title a call leaves on a label that is live and
    renders its text itself. *)
Lemma setValue_texts this w :
  wf this (elements w) → live this → plain this →
  let r := setValue label description options this w in
  Dom.get Dom.textContent (labelElement this) (world r) = Some (text_of label) ∧
  Dom.get Dom.textContent (FastLabelNode.element (descriptionNode this)) (world r) =
    Some (text_of description) ∧
  Dom.get Dom.title (element this) (world r) = Some (title_of options).
Proof.
  intros Hwf (Hld & Hls & Hll) Hp. cbv zeta. unfold Dom.get.
  destruct (setValue_spec label description options this w Hwf) as (E & _).
  cbv zeta in E. rewrite E. clear E.
  destruct Hwf as (Hlt & Hne & Hb & _).
  rewrite !field_paintBadge;
    try rewrite length_paintNodes;
    try solve [reflexivity | tauto | intros ? []; reflexivity
              | intros b Eb; rewrite Eb in Hb; tauto].
  destruct this as [dn ln ds bn].
  unfold plain, paintNodes, paintLabel, element, labelElement, FastLabelNode.element in *.
  cbn [domNode labelNode descriptionNode badgeNode] in *.
  destruct ln as [lf|hel]; [|contradiction].
  assert (Hlen : ∀ i, i < length (elements w) →
            i < length match options with
                       | Some o =>
                           alter (with_color
                                    (colorText o))
                             (FastLabelNode._element dn) (elements w)
                       | None => elements w
                       end)
    by (intros i Hi; destruct options; rewrite ?length_alter; exact Hi).
  split; [|split].
  - frame_step. rewrite (field_memo_write_ne Dom.textContent) by lia.
    rewrite field_memo_write_eq by exact Hll.
    apply field_const; [reflexivity|].
    rewrite !length_memo_write. apply Hlen. tauto.
  - frame_step. rewrite field_memo_write_eq by exact Hls.
    apply field_const; [reflexivity|].
    rewrite !length_memo_write. apply Hlen. tauto.
  - repeat frame_step. rewrite field_memo_write_eq by exact Hld.
    apply field_const; [reflexivity|].
    rewrite !length_memo_write. apply Hlen. tauto.
Qed.

End TextFacts.

Lemma new_plain container w : IconLabel.plain (IconLabel.new container None w).1.
Proof. rewrite new_eq. exact I. Qed.

Section FileLabelFacts.

Context {IWorkspaceFolderProvider IUserHomeProvider : Type}.
Variable dirname basename : string → string.
Variable getPathLabel :
  string → IWorkspaceFolderProvider → option IUserHomeProvider → string.

Lemma description_of_cases parent provider userHome :
  FileLabel.description_of getPathLabel parent provider userHome =
  if decide (parent = "" ∨ parent = ".") then "" else getPathLabel parent provider userHome.
Proof.
  unfold FileLabel.description_of.
  destruct (decide (parent = "" ∨ parent = ".")) as [[-> | ->]|Hn]; try reflexivity.
  destruct parent as [|a s]; [exfalso; apply Hn; left; reflexivity|].
  cbn [Js.truthy andb]. rewrite bool_decide_eq_false_2; [reflexivity|].
  intros E. apply Hn. right. exact E.
Qed.

(** C4, as the code has it.  On a live label that renders its text
    itself, [setFile] leaves the label element with the basename of the
    path, the container with the full path as title, and the description
    element with the parent directory as the path-label collaborator
    formats it, or with the empty text when the parent directory is empty
    or is '.'; every other parent directory is formatted and shown.  The
    constructor leaves the same on the elements it creates. *)
Theorem setFile_shows_basename_and_parent (file : FileLabel.uri)
    (provider : IWorkspaceFolderProvider) (userHome : option IUserHomeProvider)
    (container : nat) (this : IconLabel.t) (w : World)
    (Hwf : IconLabel.wf this (elements w))
    (Hlive : IconLabel.live this)
    (Hplain : IconLabel.plain this) :
  let parent := dirname (FileLabel.fsPath file) in
  let shown :=
    if decide (parent = "" ∨ parent = ".") then ""
    else getPathLabel parent provider userHome in
  let r := FileLabel.setFile dirname basename getPathLabel file provider userHome this w in
  let r0 := FileLabel.new dirname basename getPathLabel container file provider userHome w in
  let n := length (elements w) in
  (Dom.get Dom.textContent (IconLabel.labelElement this) (IconLabel.world r) =
     Some (basename (FileLabel.fsPath file)) ∧
   Dom.get Dom.textContent (FastLabelNode.element (IconLabel.descriptionNode this))
     (IconLabel.world r) = Some shown ∧
   Dom.get Dom.title (IconLabel.element this) (IconLabel.world r) =
     Some (FileLabel.fsPath file)) ∧
  (Dom.get Dom.textContent (S n) (IconLabel.world r0) =
     Some (basename (FileLabel.fsPath file)) ∧
   Dom.get Dom.textContent (S (S n)) (IconLabel.world r0) = Some shown ∧
   Dom.get Dom.title n (IconLabel.world r0) = Some (FileLabel.fsPath file)).
Proof.
  cbv zeta.
  assert (Hset : ∀ this' w',
            IconLabel.wf this' (elements w') → IconLabel.live this' → IconLabel.plain this' →
            let r := FileLabel.setFile dirname basename getPathLabel file provider userHome
                       this' w' in
            Dom.get Dom.textContent (IconLabel.labelElement this') (IconLabel.world r) =
              Some (basename (FileLabel.fsPath file)) ∧
            Dom.get Dom.textContent (FastLabelNode.element (IconLabel.descriptionNode this'))
              (IconLabel.world r) =
              Some (if decide (dirname (FileLabel.fsPath file) = "" ∨
                               dirname (FileLabel.fsPath file) = ".")
                    then "" else getPathLabel (dirname (FileLabel.fsPath file)) provider userHome) ∧
            Dom.get Dom.title (IconLabel.element this') (IconLabel.world r) =
              Some (FileLabel.fsPath file)).
  { intros this' w' Hwf' Hlive' Hplain'. cbv zeta. unfold FileLabel.setFile.
    match goal with
    | |- context [IconLabel.setValue ?l ?d ?o this' w'] =>
        destruct (setValue_texts l d o this' w' Hwf' Hlive' Hplain') as (H1 & H2 & H3)
    end.
    rewrite H1, H2, H3, !text_of_default, title_of_default, <- description_of_cases.
    repeat split. }
  split; [exact (Hset this w Hwf Hlive Hplain)|].
  unfold FileLabel.new.
  destruct (new_spec container None w) as (E1 & E2 & E3 & _ & Hl0 & _ & Hwf0).
  pose proof (new_plain container w) as Hp0.
  cbv zeta in *.
  destruct (IconLabel.new container None w) as [this0 w0]. cbn [fst snd] in *.
  rewrite <- E3, <- E2, <- E1.
  exact (Hset this0 w0 Hwf0 Hl0 Hp0).
Qed.

End FileLabelFacts.

Lemma setFile_shows_basename_and_parent_witness :
  IconLabel.wf Sample.fresh.1 (elements Sample.fresh.2) ∧
  IconLabel.live Sample.fresh.1 ∧
  IconLabel.plain Sample.fresh.1 ∧
  let r :=
    FileLabel.setFile Paths.dirname Paths.basename (λ p (_ : unit) (_ : option unit), p)
      (FileLabel.mkUri "/src/main.ts") tt None Sample.fresh.1 Sample.fresh.2 in
  Dom.get Dom.textContent 2 (IconLabel.world r) = Some "main.ts" ∧
  Dom.get Dom.textContent 3 (IconLabel.world r) = Some "/src" ∧
  Dom.get Dom.title 1 (IconLabel.world r) = Some "/src/main.ts".
Proof.
  assert (H : IconLabel.wf Sample.fresh.1 (elements Sample.fresh.2)) by by_computation.
  assert (Hl : IconLabel.live Sample.fresh.1) by by_computation.
  assert (Hp : IconLabel.plain Sample.fresh.1) by exact I.
  split; [exact H|]. split; [exact Hl|]. split; [exact Hp|].
  destruct (setFile_shows_basename_and_parent Paths.dirname Paths.basename
              (λ p (_ : unit) (_ : option unit), p)
              (FileLabel.mkUri "/src/main.ts") tt None 0
              Sample.fresh.1 Sample.fresh.2 H Hl Hp) as [Hr _].
  exact Hr.
Defined.

(** C4, as the specification states it, fails: for a file directly under
    the root the parent directory is the root of the path, and the label
    shows it, formatted, where the specification leaves the description
    out. *)
Lemma setFile_shows_root_parent :
  let format := λ (p : string) (_ : unit) (_ : option unit), p in
  let file := FileLabel.mkUri "/main.ts" in
  let r := FileLabel.new Paths.dirname Paths.basename format 0 file tt None Sample.page in
  Paths.dirname "/main.ts" = "/" ∧
  FileLabel.spec_description Paths.dirname format "/" file tt None = "" ∧
  Dom.get Dom.textContent 3 (IconLabel.world r) = Some "/" ∧
  Dom.get Dom.textContent 3 (IconLabel.world r) ≠
    Some (FileLabel.spec_description Paths.dirname format "/" file tt None).
Proof. vm_compute. repeat split. discriminate. Qed.

(** * Further properties *)

(** ** The wrapper on its own *)

Section WrapperFacts.

Import FastLabelNode.

Lemma call_writes c n w : effects (call c n w).2 = (effects w ++ writes c n)%list.
Proof. apply call_effects. Qed.

Lemma call_again c n w : call c (call c n w).1 (call c n w).2 = call c n w.
Proof.
  rewrite call_skips by apply call_settles. destruct (call c n w). reflexivity.
Qed.

Lemma run_ids cs n w :
  disposed (run cs n w).1 = disposed n ∧ _element (run cs n w).1 = _element n.
Proof.
  revert n w. induction cs as [|c cs IH]; intros n w; simpl; [tauto|].
  pose proof (call_disposed c n w) as Hd. pose proof (call_element c n w) as He.
  destruct (call c n w) as [n' w']. simpl in *.
  destruct (IH n' w') as [-> ->]. tauto.
Qed.

Lemma run_writes_ext cs n m els :
  disposed n = disposed m → _element n = _element m →
  run_writes cs n els = run_writes cs m els.
Proof.
  intros Hd He. revert els. induction cs as [|c cs IH]; intros els; simpl; [reflexivity|].
  rewrite (memo_write_ext c n m els Hd He). apply IH.
Qed.

Lemma run_elements cs n w :
  cache_ok n (elements w) →
  elements (run cs n w).2 = run_writes cs n (elements w) ∧
  cache_ok (run cs n w).1 (elements (run cs n w).2).
Proof.
  revert n w. induction cs as [|c cs IH]; intros n w H; simpl; [tauto|].
  pose proof (call_elements c n w H) as He.
  pose proof (cache_ok_call c n w H) as Hc.
  pose proof (call_disposed c n w) as Hd. pose proof (call_element c n w) as Hi.
  destruct (call c n w) as [n' w']. simpl in *.
  destruct (IH n' w' Hc) as [E C]. split; [|exact C].
  rewrite E, He. apply run_writes_ext; assumption.
Qed.

(** What one call leaves alone. *)
Lemma call_frame c n w :
  listeners (call c n w).2 = listeners w ∧
  next_listener (call c n w).2 = next_listener w ∧
  calls (call c n w).2 = calls w ∧
  length (elements (call c n w).2) = length (elements w) ∧
  ∀ i, i ≠ _element n → elements (call c n w).2 !! i = elements w !! i.
Proof.
  destruct c; simpl;
    unfold set_textContent, set_className, set_title, set_empty;
    destruct (disposed n || _); simpl;
    rewrite ?length_alter; repeat split; try reflexivity;
    intros i Hi; apply list_lookup_alter_ne; congruence.
Qed.

Lemma run_frame cs n w :
  listeners (run cs n w).2 = listeners w ∧
  next_listener (run cs n w).2 = next_listener w ∧
  calls (run cs n w).2 = calls w ∧
  length (elements (run cs n w).2) = length (elements w) ∧
  ∀ i, i ≠ _element n → elements (run cs n w).2 !! i = elements w !! i.
Proof.
  revert n w. induction cs as [|c cs IH]; intros n w; simpl; [tauto|].
  destruct (call_frame c n w) as (H1 & H2 & H3 & H4 & H5).
  pose proof (call_element c n w) as Hi.
  destruct (call c n w) as [n' w']. simpl in *.
  destruct (IH n' w') as (-> & -> & -> & -> & H6).
  repeat split; try assumption.
  intros i Hne. rewrite H6 by congruence. apply H5. exact Hne.
Qed.

Lemma run_effects cs n w :
  ∃ evs, effects (run cs n w).2 = (effects w ++ evs)%list ∧ (length evs ≤ length cs)%nat.
Proof.
  revert n w. induction cs as [|c cs IH]; intros n w; simpl.
  - exists []. rewrite app_nil_r. split; [reflexivity|simpl; lia].
  - pose proof (call_writes c n w) as Hw.
    destruct (call c n w) as [n' w']. simpl in *.
    destruct (IH n' w') as (evs & E & L).
    exists (writes c n ++ evs)%list. split.
    + rewrite E, Hw, <- app_assoc. reflexivity.
    + rewrite length_app. unfold writes. destruct (skips c n); simpl; lia.
Qed.

End WrapperFacts.

(** X1.  A setter of the wrapper appends to the log the one assignment it
    makes, or nothing when its guard skips it, and calling it again at
    once with the same value changes nothing more: two equal calls in a
    row are one call. *)
Theorem setter_twice_is_once (c : FastLabelNode.Call) (this : FastLabelNode.t) (w : World) :
  let p := FastLabelNode.call c this w in
  effects p.2 = (effects w ++ FastLabelNode.writes c this)%list ∧
  FastLabelNode.call c p.1 p.2 = p ∧
  ∀ cs, FastLabelNode.run (c :: c :: cs) this w = FastLabelNode.run (c :: cs) this w.
Proof.
  cbv zeta. split; [apply call_writes|]. split; [apply call_again|].
  intros cs. simpl.
  pose proof (call_again c this w) as H.
  destruct (FastLabelNode.call c this w) as [n' w']. simpl in H. rewrite H. reflexivity.
Qed.

(** X2.  The cache never leaves a stale element.  When the cache of a
    wrapper agrees with its element, a run of setter calls leaves the
    elements that the same assignments made without any cache leave, and
    the cache agrees again afterwards; on a wrapper that is not disposed
    the element has the value of a call after it, skipped or not. *)
Theorem wrapper_writes_through (c : FastLabelNode.Call) (cs : list FastLabelNode.Call)
    (this : FastLabelNode.t) (w : World)
    (H : FastLabelNode.cache_ok this (elements w)) :
  elements (FastLabelNode.run cs this w).2 = FastLabelNode.run_writes cs this (elements w) ∧
  FastLabelNode.cache_ok (FastLabelNode.run cs this w).1
    (elements (FastLabelNode.run cs this w).2) ∧
  (FastLabelNode.disposed this = false →
   elements (FastLabelNode.call c this w).2 !! FastLabelNode._element this =
   FastLabelNode.update_of c <$> elements w !! FastLabelNode._element this).
Proof.
  destruct (run_elements cs this w H) as [E C].
  split; [exact E|]. split; [exact C|].
  intros Hd. rewrite call_elements by exact H.
  unfold FastLabelNode.memo_write. rewrite Hd. apply list_lookup_alter_eq.
Qed.

Lemma wrapper_writes_through_witness :
  let node := FastLabelNode.mk false (Some "") None None None 3 in
  FastLabelNode.cache_ok node (elements Sample.fresh.2) ∧
  elements (FastLabelNode.call (FastLabelNode.CallTextContent "") node Sample.fresh.2).2 !! 3 =
  with_textContent "" <$> elements Sample.fresh.2 !! 3.
Proof.
  assert (H : FastLabelNode.cache_ok
                (FastLabelNode.mk false (Some "") None None None 3)
                (elements Sample.fresh.2)) by by_computation.
  split; [exact H|].
  destruct (wrapper_writes_through (FastLabelNode.CallTextContent "") []
              (FastLabelNode.mk false (Some "") None None None 3) Sample.fresh.2 H)
    as (_ & _ & Hc).
  exact (Hc eq_refl).
Defined.

(** X3.  A run of setter calls stays on its own element: it registers and
    removes no listener, invokes no callback, creates no element, leaves
    every other element as it was, keeps the wrapper on the same element
    and as disposed as it was, and appends at most one effect per call. *)
Theorem wrapper_stays_on_its_element (cs : list FastLabelNode.Call)
    (this : FastLabelNode.t) (w : World) :
  let p := FastLabelNode.run cs this w in
  listeners p.2 = listeners w ∧ next_listener p.2 = next_listener w ∧
  calls p.2 = calls w ∧
  length (elements p.2) = length (elements w) ∧
  (∀ i, i ≠ FastLabelNode._element this → elements p.2 !! i = elements w !! i) ∧
  FastLabelNode.disposed p.1 = FastLabelNode.disposed this ∧
  FastLabelNode._element p.1 = FastLabelNode._element this ∧
  ∃ evs, effects p.2 = (effects w ++ evs)%list ∧ (length evs ≤ length cs)%nat.
Proof.
  cbv zeta.
  destruct (run_frame cs this w) as (H1 & H2 & H3 & H4 & H5).
  destruct (run_ids cs this w) as (H6 & H7).
  repeat split; try assumption. apply run_effects.
Qed.

(** ** The constructor *)






(** ** The writes of a call, in order *)

Section TraceFacts.

Import IconLabel.

Variables (label description : option string) (options : option IIconLabelOptions).

Lemma writes_ext c n m :
  FastLabelNode.skips c n = FastLabelNode.skips c m →
  FastLabelNode._element n = FastLabelNode._element m →
  FastLabelNode.writes c n = FastLabelNode.writes c m.
Proof. unfold FastLabelNode.writes. intros -> ->. reflexivity. Qed.

Lemma setLabel_rest n w :
  let p := setLabel label options n w in
  length (elements p.2) = length (elements w) ∧
  listeners p.2 = listeners w ∧ next_listener p.2 = next_listener w ∧
  calls p.2 = calls w ∧
  effects p.2 =
    (effects w ++
     match n with
     | Highlighted el => [HighlightSet el (text_of label) (options ≫= matches)]
     | Plain f => FastLabelNode.writes (textCall label) f
     end)%list.
Proof.
  destruct n as [f|hel]; simpl; [|repeat split; reflexivity].
  destruct (call_frame (textCall label) f w) as (H1 & H2 & H3 & H4 & _).
  pose proof (call_writes (textCall label) f w) as H5.
  simpl in *. destruct (FastLabelNode.set_textContent _ f w). simpl in *.
  repeat split; assumption.
Qed.

Lemma applyColor_rest this w :
  length (elements (applyColor options this w)) = length (elements w) ∧
  listeners (applyColor options this w) = listeners w ∧
  next_listener (applyColor options this w) = next_listener w ∧
  calls (applyColor options this w) = calls w ∧
  effects (applyColor options this w) =
    (effects w ++
     match options with
     | Some o => [SetColor (element this) (colorText o)]
     | None => []
     end)%list.
Proof.
  unfold applyColor. destruct options; simpl; rewrite ?length_alter, ?app_nil_r;
    repeat split; reflexivity.
Qed.

(** [writeNodes] creates no element, touches no listener, and logs its
    assignments in program order. *)
Lemma writeNodes_rest this w :
  let p := writeNodes label description options this w in
  length (elements p.2) = length (elements w) ∧
  listeners p.2 = listeners w ∧ next_listener p.2 = next_listener w ∧
  calls p.2 = calls w ∧
  effects p.2 =
    (effects w ++
     match options with
     | Some o => [SetColor (element this) (colorText o)]
     | None => []
     end ++
     FastLabelNode.writes (classCall options) (domNode this) ++
     FastLabelNode.writes (titleCall options) (domNode this) ++
     match labelNode this with
     | Highlighted el => [HighlightSet el (text_of label) (options ≫= matches)]
     | Plain f => FastLabelNode.writes (textCall label) f
     end ++
     FastLabelNode.writes (textCall description) (descriptionNode this) ++
     FastLabelNode.writes (emptyCall description) (descriptionNode this))%list.
Proof.
  cbv zeta. rewrite writeNodes_eq. cbv zeta. cbn [fst snd].
  destruct (applyColor_rest this w) as (A1 & A2 & A3 & A4 & A5).
  set (w0 := applyColor options this w) in *.
  destruct (call_frame (classCall options) (domNode this) w0) as (B1 & B2 & B3 & B4 & _).
  pose proof (call_writes (classCall options) (domNode this) w0) as B5.
  pose proof (call_keeps (classCall options) (titleCall options) (domNode this) w0 I) as Bk.
  pose proof (call_element (classCall options) (domNode this) w0) as Be.
  set (p1 := FastLabelNode.call (classCall options) (domNode this) w0) in *.
  destruct (call_frame (titleCall options) p1.1 p1.2) as (C1 & C2 & C3 & C4 & _).
  pose proof (call_writes (titleCall options) p1.1 p1.2) as C5.
  rewrite (writes_ext _ _ _ Bk Be) in C5.
  set (p2 := FastLabelNode.call (titleCall options) p1.1 p1.2) in *.
  destruct (setLabel_rest (labelNode this) p2.2) as (D1 & D2 & D3 & D4 & D5).
  cbv zeta in *.
  set (p3 := setLabel label options (labelNode this) p2.2) in *.
  destruct (call_frame (textCall description) (descriptionNode this) p3.2)
    as (E1 & E2 & E3 & E4 & _).
  pose proof (call_writes (textCall description) (descriptionNode this) p3.2) as E5.
  pose proof (call_keeps (textCall description) (emptyCall description)
                (descriptionNode this) p3.2 I) as Ek.
  pose proof (call_element (textCall description) (descriptionNode this) p3.2) as Ee.
  set (p4 := FastLabelNode.call (textCall description) (descriptionNode this) p3.2) in *.
  destruct (call_frame (emptyCall description) p4.1 p4.2) as (F1 & F2 & F3 & F4 & _).
  pose proof (call_writes (emptyCall description) p4.1 p4.2) as F5.
  rewrite (writes_ext _ _ _ Ek Ee) in F5.
  split; [congruence|]. split; [congruence|]. split; [congruence|]. split; [congruence|].
  rewrite F5, E5, D5, C5, B5, A5. rewrite <- !app_assoc. reflexivity.
Qed.

Lemma badge_effects_ext this this' n :
  badgeNode this' = badgeNode this → element this' = element this →
  badge_effects options this' n = badge_effects options this n.
Proof.
  intros Hb He. unfold badge_effects, badge_rewrites. rewrite Hb, He. reflexivity.
Qed.

Lemma setValue_rest this w :
  let r := setValue label description options this w in
  listeners (world r) = listeners w ∧ next_listener (world r) = next_listener w ∧
  calls (world r) = calls w ∧
  effects (world r) =
    (effects w ++ trace label description options this (length (elements w)))%list ∧
  completion r = completion_of options this ∧
  badgeNode (widget r) = badge_after options this (length (elements w)) ∧
  length (elements (world r)) =
    match badge_request options, badgeNode this with
    | Some _, None => S (length (elements w))
    | _, _ => length (elements w)
    end.
Proof.
  cbv zeta. rewrite setValue_eq.
  destruct (writeNodes_rest this w) as (A1 & A2 & A3 & A4 & A5).
  destruct (writeNodes_ids label description options this w) as (Ib & Ie & _).
  cbv zeta in *.
  set (p := writeNodes label description options this w) in *.
  destruct (reconcileBadge_run options p.1 p.2) as (Hc & Hw & He & Hf & H1 & H2 & H3).
  rewrite H1, H2, H3, Hf, Hc, Hw, He, A5, A1, length_paintBadge, A1.
  rewrite (badge_effects_ext this p.1 _ Ib Ie).
  unfold completion_of, badge_after, trace. rewrite Ib.
  cbn [with_badgeNode badgeNode].
  rewrite <- !app_assoc. repeat split; assumption.
Qed.

End TraceFacts.

(** X5.  The effects of a [setValue] call, all of them and in program
    order: the container's text color when an options object is given;
    then the class list and the title of the container, the label text (or
    the hand-over to the highlight collaborator), the description text and
    its margin, each of these only when its wrapper does not skip it; and
    last the creation, update or hiding of the badge.  The call registers
    and removes no listener and invokes no callback. *)
Theorem setValue_writes_in_order (label description : option string)
    (options : option IconLabel.IIconLabelOptions) (this : IconLabel.t) (w : World) :
  let r := IconLabel.setValue label description options this w in
  effects (IconLabel.world r) =
    (effects w ++
     match options with
     | Some o => [SetColor (IconLabel.element this) (IconLabel.colorText o)]
     | None => []
     end ++
     FastLabelNode.writes (IconLabel.classCall options) (IconLabel.domNode this) ++
     FastLabelNode.writes (IconLabel.titleCall options) (IconLabel.domNode this) ++
     match IconLabel.labelNode this with
     | IconLabel.Highlighted el =>
         [HighlightSet el (IconLabel.text_of label) (options ≫= IconLabel.matches)]
     | IconLabel.Plain f => FastLabelNode.writes (IconLabel.textCall label) f
     end ++
     FastLabelNode.writes (IconLabel.textCall description) (IconLabel.descriptionNode this) ++
     FastLabelNode.writes (IconLabel.emptyCall description) (IconLabel.descriptionNode this) ++
     IconLabel.badge_effects options this (length (elements w)))%list ∧
  listeners (IconLabel.world r) = listeners w ∧
  next_listener (IconLabel.world r) = next_listener w ∧
  calls (IconLabel.world r) = calls w.
Proof.
  cbv zeta.
  destruct (setValue_rest label description options this w) as (H1 & H2 & H3 & H4 & _).
  split; [|repeat split; assumption].
  rewrite H4. reflexivity.
Qed.

Lemma new_shape container options w :
  let n := length (elements w) in
  ∃ w',
    IconLabel.new container options w =
    (IconLabel.mk (FastLabelNode.new n)
       (if Js.truthy_bool (options ≫= IconLabel.supportHighlights)
        then IconLabel.Highlighted (S n)
        else IconLabel.Plain (FastLabelNode.new (S n)))
       (FastLabelNode.new (S (S n))) None,
     w') ∧
    length (elements w') = S (S (S n)).
Proof.
  cbv zeta. rewrite new_eq. cbv zeta.
  pose proof (append_spec container (DomHelpers.dollar "div" "monaco-icon-label" w))
    as [E1 L1].
  pose proof (dollar_spec "div" "monaco-icon-label" w) as [D1 M1].
  generalize dependent (DomHelpers.dollar "div" "monaco-icon-label" w). intros d1.
  generalize (DomHelpers.append container d1). intros c1 E1 L1 D1 M1.
  pose proof (append_spec c1.1 (DomHelpers.dollar "a" "label-name" c1.2)) as [E2 L2].
  pose proof (dollar_spec "a" "label-name" c1.2) as [D2 M2].
  generalize dependent (DomHelpers.dollar "a" "label-name" c1.2). intros d2.
  generalize (DomHelpers.append c1.1 d2). intros c2 E2 L2 D2 M2.
  pose proof (append_spec c1.1 (DomHelpers.dollar "span" "label-description" c2.2))
    as [E3 L3].
  pose proof (dollar_spec "span" "label-description" c2.2) as [D3 M3].
  generalize dependent (DomHelpers.dollar "span" "label-description" c2.2). intros d3.
  generalize (DomHelpers.append c1.1 d3). intros c3 E3 L3 D3 M3.
  exists c3.2.
  replace c1.1 with (length (elements w)) by congruence.
  replace c2.1 with (S (length (elements w))) by congruence.
  replace c3.1 with (S (S (length (elements w)))) by congruence.
  split; [reflexivity|congruence].
Qed.

(** X6.  The caches of a new label are empty, so the first [setValue]
    call on it skips nothing: whatever its arguments, it assigns the class
    list and the title of the container, the label text (or hands it to
    the highlight collaborator), the description text and the margin, also
    where the new value is the one the element already has, such as the
    class 'monaco-icon-label' the constructor gave the container. *)
Theorem first_call_writes_everything (container : nat)
    (creation : option IconLabel.IIconLabelCreationOptions) (w : World)
    (label description : option string) (options : option IconLabel.IIconLabelOptions) :
  let s := IconLabel.new container creation w in
  let n := length (elements w) in
  let r := IconLabel.setValue label description options s.1 s.2 in
  effects (IconLabel.world r) =
    (effects s.2 ++
     match options with
     | Some o => [SetColor n (IconLabel.colorText o)]
     | None => []
     end ++
     [SetClassName n (Js.join " " (IconLabel.classes options));
      SetTitle n (IconLabel.title_of options)] ++
     (if Js.truthy_bool (creation ≫= IconLabel.supportHighlights)
      then [HighlightSet (S n) (IconLabel.text_of label) (options ≫= IconLabel.matches)]
      else [SetTextContent (S n) (IconLabel.text_of label)]) ++
     [SetTextContent (S (S n)) (IconLabel.text_of description);
      SetMarginLeft (S (S n)) (if negb (Js.truthy description) then Some "0" else None)] ++
     IconLabel.badge_effects options s.1 (S (S (S n))))%list.
Proof.
  cbv zeta.
  destruct (new_shape container creation w) as (w' & E & L). cbv zeta in E.
  rewrite E. cbn [fst snd].
  match goal with
  | |- context [IconLabel.setValue _ _ _ ?t _] =>
      destruct (setValue_rest label description options t w') as (_ & _ & _ & H & _)
  end.
  rewrite H, L. unfold IconLabel.trace, FastLabelNode.writes, FastLabelNode.skips.
  destruct (Js.truthy_bool (creation ≫= IconLabel.supportHighlights)); reflexivity.
Qed.

(** ** When a call throws *)

Section ThrowFacts.

Import IconLabel.

Lemma paintNodes_frame {A} (f : Element → A) label description options this els i :
  (∀ v e, f (with_color v e) = f e) →
  (∀ v e, f (with_className v e) = f e) →
  (∀ v e, f (with_title v e) = f e) →
  (∀ v e, f (with_textContent v e) = f e) →
  (∀ v e, f (with_marginLeft v e) = f e) →
  f <$> paintNodes label description options this els !! i = f <$> els !! i.
Proof.
  intros H1 H2 H3 H4 H5.
  assert (Hc : ∀ c e, f (FastLabelNode.update_of c e) = f e)
    by (intros [] e; simpl; auto).
  unfold paintNodes, paintLabel.
  rewrite !(field_memo_write_frame f) by apply Hc.
  destruct (labelNode this); rewrite ?(field_memo_write_frame f) by apply Hc;
    destruct options; rewrite ?(field_alter_frame f) by apply H1; reflexivity.
Qed.

Lemma lookup_paintBadge_other options this (els : list Element) i :
  i < length els → i ≠ element this → (∀ b, badgeNode this = Some b → b ≠ i) →
  paintBadge options this els !! i = els !! i.
Proof.
  intros Hi He Hb. unfold paintBadge, paintUpdate, paintCreate.
  destruct (badge_request options) as [[o bd]|], (badgeNode this) as [b|];
    try destruct (color o);
    try (specialize (Hb _ eq_refl));
    rewrite ?list_lookup_alter_ne by lia;
    rewrite ?lookup_app_l by lia; reflexivity.
Qed.

Lemma step_ids op s :
  element (step op s).1 = element s.1 ∧
  labelElement (step op s).1 = labelElement s.1 ∧
  FastLabelNode.element (descriptionNode (step op s).1) =
    FastLabelNode.element (descriptionNode s.1).
Proof.
  destruct op as [l d o|]; simpl.
  - rewrite setValue_widget.
    destruct (writeNodes_ids l d o s.1 s.2) as (_ & He & Hl & Hs & _).
    exact (conj He (conj Hl Hs)).
  - destruct (dispose_spec s.1 s.2) as (_ & _ & He & Hl & Hs & _).
    exact (conj He (conj Hl Hs)).
Qed.

Lemma exec_ids ops s :
  element (exec ops s).1 = element s.1 ∧
  labelElement (exec ops s).1 = labelElement s.1 ∧
  FastLabelNode.element (descriptionNode (exec ops s).1) =
    FastLabelNode.element (descriptionNode s.1).
Proof.
  revert s. induction ops as [|op ops IH]; intros s; simpl; [tauto|].
  destruct (IH (step op s)) as (-> & -> & ->). apply step_ids.
Qed.

End ThrowFacts.

(** X7.  A [setValue] call ends with a TypeError in one case only: its
    options ask for a badge and carry no color while the label holds no
    badge element.  Every other call completes normally: one without
    options or without badge, one that carries a color, and one on a label
    that holds a badge element already, colored or not. *)
Theorem setValue_throws_iff (label description : option string)
    (options : option IconLabel.IIconLabelOptions) (this : IconLabel.t) (w : World) :
  IconLabel.completion (IconLabel.setValue label description options this w) =
    IconLabel.TypeError ↔
  ∃ o bd, options = Some o ∧ IconLabel.badge o = Some bd ∧
          IconLabel.color o = None ∧ IconLabel.badgeNode this = None.
Proof.
  destruct (setValue_rest label description options this w) as (_ & _ & _ & _ & Hc & _).
  rewrite Hc. unfold IconLabel.completion_of.
  destruct options as [o|]; simpl.
  - destruct (IconLabel.badge o) as [bd|] eqn:Eb; simpl.
    + destruct (IconLabel.badgeNode this) as [b|] eqn:En.
      * split; [discriminate|]. intros (? & ? & _ & _ & _ & ?). discriminate.
      * destruct (IconLabel.color o) as [c|] eqn:Ec.
        -- split; [discriminate|]. intros (o' & ? & E & _ & Hn & _).
           injection E as <-. congruence.
        -- split; [|reflexivity]. intros _. exists o, bd. tauto.
    + destruct (IconLabel.badgeNode this);
        (split; [discriminate|]); intros (o' & ? & E & Hb & _); injection E as <-; congruence.
  - destruct (IconLabel.badgeNode this);
      (split; [discriminate|]); intros (? & ? & ? & _); discriminate.
Qed.

(** X8.  A call that throws has done everything up to the throw: the
    element it created for the badge exists, a span of class 'label-badge'
    without colors, letter or title, and the label holds it, but it is not
    appended to the container and the container is not switched to flex.
    It stays that way: after any later run of calls the label holds the
    same element, the children of the container are those from before the
    throwing call, and the element still has no background and no
    foreground color, whatever colors the later calls carry. *)
Theorem failed_badge_stays_detached (label description : option string)
    (o : IconLabel.IIconLabelOptions) (bd : IconLabel.Badge)
    (this : IconLabel.t) (w : World)
    (Hwf : IconLabel.wf this (elements w))
    (Hnone : IconLabel.badgeNode this = None)
    (Hbadge : IconLabel.badge o = Some bd)
    (Hcolor : IconLabel.color o = None) :
  let r := IconLabel.setValue label description (Some o) this w in
  let n := length (elements w) in
  IconLabel.completion r = IconLabel.TypeError ∧
  IconLabel.badgeNode (IconLabel.widget r) = Some n ∧
  elements (IconLabel.world r) !! n =
    Some (mkElement "span" "label-badge" "" "" "" None "" "" "" []) ∧
  Dom.get children (IconLabel.element this) (IconLabel.world r) =
    Dom.get children (IconLabel.element this) w ∧
  Dom.get Dom.display (IconLabel.element this) (IconLabel.world r) =
    Dom.get Dom.display (IconLabel.element this) w ∧
  ∀ ops,
    let s := IconLabel.exec ops (IconLabel.widget r, IconLabel.world r) in
    IconLabel.badgeNode s.1 = Some n ∧
    Dom.get children (IconLabel.element this) s.2 =
      Dom.get children (IconLabel.element this) w ∧
    Dom.get Dom.backgroundColor n s.2 = Some "" ∧
    Dom.get Dom.color n s.2 = Some "".
Proof.
  cbv zeta.
  destruct (setValue_spec label description (Some o) this w Hwf)
    as (E & Hwf1 & Hc & Hbn & He & _).
  cbv zeta in *.
  set (r := IconLabel.setValue label description (Some o) this w) in *.
  assert (Hreq : IconLabel.badge_request (Some o) = Some (o, bd))
    by (simpl; rewrite Hbadge; reflexivity).
  pose proof Hwf as ((Hlt & _) & _).
  set (els := IconLabel.paintNodes label description (Some o) this (elements w)) in *.
  assert (Hl : length els = length (elements w)) by apply length_paintNodes.
  assert (Ee : elements (IconLabel.world r) =
               alter (with_className "label-badge") (length els) (els ++ [blank "span"])%list)
    by (rewrite E; unfold IconLabel.paintBadge; rewrite Hreq, Hnone, Hcolor; reflexivity).
  assert (Hb1 : IconLabel.badgeNode (IconLabel.widget r) = Some (length (elements w)))
    by (rewrite Hbn; unfold IconLabel.badge_after; rewrite Hreq, Hnone; reflexivity).
  assert (Hel : elements (IconLabel.world r) !! length (elements w) =
                Some (mkElement "span" "label-badge" "" "" "" None "" "" "" [])).
  { rewrite Ee, <- Hl, list_lookup_alter_eq, list_lookup_middle by reflexivity.
    reflexivity. }
  assert (Hch : Dom.get children (IconLabel.element this) (IconLabel.world r) =
                Dom.get children (IconLabel.element this) w).
  { unfold Dom.get. rewrite Ee. repeat frame_step. rewrite lookup_app_l by lia.
    apply children_paintNodes. }
  split; [|split; [exact Hb1|split; [exact Hel|split; [exact Hch|split]]]].
  - rewrite Hc. unfold IconLabel.completion_of. rewrite Hreq, Hnone, Hcolor. reflexivity.
  - unfold Dom.get. rewrite Ee. repeat frame_step. rewrite lookup_app_l by lia.
    apply paintNodes_frame; intros v []; reflexivity.
  - intros ops.
    pose proof (exec_badge_stable ops (IconLabel.widget r, IconLabel.world r) _ Hwf1 Hb1)
      as (Hb' & _ & _ & Hch' & Hf).
    cbn [fst snd] in *.
    split; [exact Hb'|]. split; [rewrite <- Hch, <- He; exact Hch'|].
    split.
    + rewrite (Hf _ Dom.backgroundColor) by (intros v []; reflexivity).
      unfold Dom.get. rewrite Hel. reflexivity.
    + rewrite (Hf _ Dom.color) by (intros v []; reflexivity).
      unfold Dom.get. rewrite Hel. reflexivity.
Qed.

Lemma failed_badge_stays_detached_witness :
  IconLabel.wf Sample.fresh.1 (elements Sample.fresh.2) ∧
  IconLabel.badgeNode Sample.fresh.1 = None ∧
  IconLabel.badge Sample.badge_only = Some (IconLabel.mkBadge "M" "Modified") ∧
  IconLabel.color Sample.badge_only = None ∧
  let r := IconLabel.setValue (Some "a.ts") None (Some Sample.badge_only)
             Sample.fresh.1 Sample.fresh.2 in
  Dom.get Dom.backgroundColor 4
    (IconLabel.exec [IconLabel.OpSetValue (Some "a.ts") None (Some Sample.modified)]
       (IconLabel.widget r, IconLabel.world r)).2 = Some "".
Proof.
  assert (H : IconLabel.wf Sample.fresh.1 (elements Sample.fresh.2)) by by_computation.
  split; [exact H|]. repeat (split; [reflexivity|]).
  destruct (failed_badge_stays_detached (Some "a.ts") None Sample.badge_only
              (IconLabel.mkBadge "M" "Modified") Sample.fresh.1 Sample.fresh.2
              H eq_refl eq_refl eq_refl) as (_ & _ & _ & _ & _ & Hops).
  exact (proj1 (proj2 (proj2
           (Hops [IconLabel.OpSetValue (Some "a.ts") None (Some Sample.modified)])))).
Defined.

(** ** What a call reaches *)

(** X9.  The display of the container is assigned in one place only: a
    call that creates the badge element and colors it switches the
    container to 'flex'.  Every other call leaves the display of the
    container as it was; in particular hiding the badge does not undo the
    switch, and a creation that throws does not make it. *)
Theorem container_turns_flex_on_creation_only (label description : option string)
    (options : option IconLabel.IIconLabelOptions) (this : IconLabel.t) (w : World)
    (Hwf : IconLabel.wf this (elements w)) :
  let r := IconLabel.setValue label description options this w in
  Dom.get Dom.display (IconLabel.element this) (IconLabel.world r) =
  match IconLabel.badge_request options, IconLabel.badgeNode this with
  | Some (o, _), None =>
      match IconLabel.color o with
      | Some _ => Some "flex"
      | None => Dom.get Dom.display (IconLabel.element this) w
      end
  | _, _ => Dom.get Dom.display (IconLabel.element this) w
  end.
Proof.
  cbv zeta.
  destruct (setValue_spec label description options this w Hwf) as (E & _).
  cbv zeta in E. unfold Dom.get. rewrite E. clear E.
  destruct Hwf as ((Hlt & _) & _ & Hb & _).
  set (els := IconLabel.paintNodes label description options this (elements w)).
  assert (Hl : length els = length (elements w)) by apply length_paintNodes.
  assert (Hfr : Dom.display <$> els !! IconLabel.element this =
                Dom.display <$> elements w !! IconLabel.element this)
    by (apply paintNodes_frame; intros v []; reflexivity).
  unfold IconLabel.paintBadge, IconLabel.paintUpdate, IconLabel.paintCreate.
  destruct (IconLabel.badge_request options) as [[o bd]|],
           (IconLabel.badgeNode this) as [b|].
  - rewrite !(field_alter_ne Dom.display) by lia. exact Hfr.
  - destruct (IconLabel.color o) as [c|].
    + rewrite !(field_alter_ne Dom.display) by lia.
      frame_step. rewrite field_alter_eq. apply field_const; [reflexivity|].
      rewrite !length_alter, length_app. simpl. lia.
    + rewrite !(field_alter_ne Dom.display) by lia.
      rewrite field_snoc by lia. exact Hfr.
  - rewrite !(field_alter_ne Dom.display) by lia. exact Hfr.
  - exact Hfr.
Qed.

Lemma container_turns_flex_on_creation_only_witness :
  IconLabel.wf Sample.badged.1 (elements Sample.badged.2) ∧
  Dom.get Dom.display 1
    (IconLabel.world
       (IconLabel.setValue (Some "a.ts") None None Sample.badged.1 Sample.badged.2))
  = Some "flex".
Proof.
  assert (H : IconLabel.wf Sample.badged.1 (elements Sample.badged.2)) by by_computation.
  split; [exact H|].
  etransitivity;
    [exact (container_turns_flex_on_creation_only (Some "a.ts") None None
              Sample.badged.1 Sample.badged.2 H)|reflexivity].
Defined.

(** X10.  A [setValue] call reaches the elements of its label only: every
    other element of the document, the container the label was built in
    among them, is after the call as it was before. *)
Theorem setValue_touches_own_elements_only (label description : option string)
    (options : option IconLabel.IIconLabelOptions) (this : IconLabel.t) (w : World)
    (Hwf : IconLabel.wf this (elements w)) :
  let r := IconLabel.setValue label description options this w in
  ∀ i, i < length (elements w) → ¬ IconLabel.owns this i →
       elements (IconLabel.world r) !! i = elements w !! i.
Proof.
  cbv zeta. intros i Hi Hown.
  destruct (setValue_spec label description options this w Hwf) as (E & _).
  cbv zeta in E. rewrite E. clear E.
  unfold IconLabel.owns in Hown.
  rewrite lookup_paintBadge_other.
  - pose proof (field_paintNodes (λ e, e) label description options this (elements w) i Hwf)
      as Hp.
    rewrite !option_fmap_id in Hp. apply Hp; tauto.
  - rewrite length_paintNodes. exact Hi.
  - tauto.
  - intros b Hb Heq. subst b. tauto.
Qed.

Lemma setValue_touches_own_elements_only_witness :
  IconLabel.wf Sample.fresh.1 (elements Sample.fresh.2) ∧
  elements
    (IconLabel.world
       (IconLabel.setValue (Some "a.ts") None (Some Sample.modified)
          Sample.fresh.1 Sample.fresh.2)) !! 0
  = elements Sample.fresh.2 !! 0.
Proof.
  assert (H : IconLabel.wf Sample.fresh.1 (elements Sample.fresh.2)) by by_computation.
  split; [exact H|].
  apply (setValue_touches_own_elements_only (Some "a.ts") None (Some Sample.modified)
           Sample.fresh.1 Sample.fresh.2 H 0).
  - vm_compute. lia.
  - vm_compute. intros [E|[E|[E|E]]]; discriminate.
Defined.

(** ** How many elements a label creates *)

Section CountFacts.

Import IconLabel.

(** The elements created between two states of a label: one when the
    badge element appeared, none otherwise. *)
Lemma step_count op s :
  let s' := step op s in
  length (elements s'.2) =
    length (elements s.2) +
    match badgeNode s.1, badgeNode s'.1 with
    | None, Some _ => 1
    | _, _ => 0
    end ∧
  ∀ b, badgeNode s.1 = Some b → badgeNode s'.1 = Some b.
Proof.
  destruct op as [l d o|]; cbn [step fst snd]; cbv zeta.
  - destruct (setValue_rest l d o s.1 s.2) as (_ & _ & _ & _ & _ & Hb & Hl).
    rewrite Hb, Hl. unfold badge_after.
    destruct (badge_request o), (badgeNode s.1); split; try lia; intros; congruence.
  - destruct (dispose_spec s.1 s.2) as (-> & -> & _).
    destruct (badgeNode s.1); split; try lia; tauto.
Qed.

Lemma exec_count ops s :
  let s' := exec ops s in
  length (elements s'.2) =
    length (elements s.2) +
    match badgeNode s.1, badgeNode s'.1 with
    | None, Some _ => 1
    | _, _ => 0
    end ∧
  ∀ b, badgeNode s.1 = Some b → badgeNode s'.1 = Some b.
Proof.
  revert s. induction ops as [|op ops IH]; intros s; simpl.
  - destruct (badgeNode s.1); split; try lia; tauto.
  - destruct (step_count op s) as [L1 B1]. destruct (IH (step op s)) as [L2 B2].
    cbv zeta in *. rewrite L2, L1. clear L1 L2.
    destruct (badgeNode s.1) as [b|] eqn:E0.
    + rewrite (B1 b eq_refl) in *. rewrite (B2 b eq_refl). split; [lia|].
      intros b' E. injection E as <-. reflexivity.
    + split; [|discriminate].
      destruct (badgeNode (step op s).1) as [b|] eqn:E1.
      * rewrite (B2 b eq_refl). lia.
      * destruct (badgeNode (exec ops (step op s)).1); lia.
Qed.

End CountFacts.

(** X11.  Over any run of [setValue] and [dispose] calls a label creates
    at most one element: the count of elements grows by one exactly when
    the label came to hold a badge element during the run, and a badge
    element it holds is never replaced.  This needs no assumption on the
    label and also covers the creation that throws. *)
Theorem label_creates_at_most_one_element (ops : list IconLabel.Op)
    (this : IconLabel.t) (w : World) :
  let s := IconLabel.exec ops (this, w) in
  length (elements s.2) =
    length (elements w) +
    match IconLabel.badgeNode this, IconLabel.badgeNode s.1 with
    | None, Some _ => 1
    | _, _ => 0
    end ∧
  (length (elements s.2) ≤ S (length (elements w)))%nat ∧
  ∀ b, IconLabel.badgeNode this = Some b → IconLabel.badgeNode s.1 = Some b.
Proof.
  cbv zeta. destruct (exec_count ops (this, w)) as [L B]. cbn [fst snd] in *.
  split; [exact L|]. split; [|exact B].
  rewrite L. destruct (IconLabel.badgeNode this), (IconLabel.badgeNode _); lia.
Qed.

(** ** Color and texts *)

(** X12.  A [setValue] call that is given an options object always
    assigns the text color of the container: the text of the color the
    options carry, or the empty string when they carry none, which clears
    a color set before.  No wrapper stands in between, so this also holds
    after [dispose] and after any other run of calls. *)
Theorem setValue_with_options_sets_or_clears_color (label description : option string)
    (o : IconLabel.IIconLabelOptions) (ops : list IconLabel.Op)
    (this : IconLabel.t) (w : World)
    (Hwf : IconLabel.wf this (elements w)) :
  let s := IconLabel.exec ops (this, w) in
  let r := IconLabel.setValue label description (Some o) s.1 s.2 in
  Dom.get Dom.color (IconLabel.element this) (IconLabel.world r) =
  Some (match IconLabel.color o with
        | Some c => Color.toString c
        | None => ""
        end).
Proof.
  cbv zeta.
  pose proof (exec_wf ops (this, w) Hwf) as Hwf'.
  destruct (exec_ids ops (this, w)) as (He & _).
  cbn [fst snd] in *. rewrite <- He.
  apply (setValue_color label description (Some o) _ _ Hwf').
Qed.

Lemma setValue_with_options_sets_or_clears_color_witness :
  IconLabel.wf Sample.badged.1 (elements Sample.badged.2) ∧
  Dom.get Dom.color 1 Sample.badged.2 = Some "#ff0000" ∧
  Dom.get Dom.color 1
    (IconLabel.world
       (IconLabel.setValue None None (Some Sample.badge_only)
          (IconLabel.exec [IconLabel.OpDispose] (Sample.badged.1, Sample.badged.2)).1
          (IconLabel.exec [IconLabel.OpDispose] (Sample.badged.1, Sample.badged.2)).2))
  = Some "".
Proof.
  assert (H : IconLabel.wf Sample.badged.1 (elements Sample.badged.2)) by by_computation.
  split; [exact H|]. split; [reflexivity|].
  exact (setValue_with_options_sets_or_clears_color None None Sample.badge_only
           [IconLabel.OpDispose] Sample.badged.1 Sample.badged.2 H).
Defined.

(** X13.  The texts after a call.  The description element has the
    description given, or the empty text for an undefined one; the
    element of a label without highlight support has the label given, or
    the empty text.  A disposed wrapper keeps the text its element had. *)
Theorem setValue_sets_texts (label description : option string)
    (options : option IconLabel.IIconLabelOptions) (this : IconLabel.t) (w : World)
    (Hwf : IconLabel.wf this (elements w)) :
  let r := IconLabel.setValue label description options this w in
  let desc := IconLabel.descriptionNode this in
  Dom.get Dom.textContent (FastLabelNode.element desc) (IconLabel.world r) =
    (if FastLabelNode.disposed desc
     then Dom.get Dom.textContent (FastLabelNode.element desc) w
     else Some (default "" description)) ∧
  ∀ f, IconLabel.labelNode this = IconLabel.Plain f →
       Dom.get Dom.textContent (FastLabelNode.element f) (IconLabel.world r) =
         (if FastLabelNode.disposed f
          then Dom.get Dom.textContent (FastLabelNode.element f) w
          else Some (default "" label)).
Proof.
  cbv zeta. unfold Dom.get.
  destruct (setValue_spec label description options this w Hwf) as (E & _).
  cbv zeta in E. rewrite E. clear E.
  destruct Hwf as (Hlt & Hne & Hb & _).
  destruct this as [dn ln ds bn].
  unfold IconLabel.element, IconLabel.labelElement, FastLabelNode.element in *.
  cbn [IconLabel.domNode IconLabel.labelNode IconLabel.descriptionNode
       IconLabel.badgeNode] in *.
  assert (Hlen : ∀ i, i < length (elements w) →
            i < length match options with
                       | Some o =>
                           alter (with_color (IconLabel.colorText o))
                             (FastLabelNode._element dn) (elements w)
                       | None => elements w
                       end)
    by (intros i Hi; destruct options; rewrite ?length_alter; exact Hi).
  assert (Hcol : ∀ i,
            Dom.textContent <$>
              match options with
              | Some o =>
                  alter (with_color (IconLabel.colorText o))
                    (FastLabelNode._element dn) (elements w)
              | None => elements w
              end !! i = Dom.textContent <$> elements w !! i)
    by (intros i; destruct options; [frame_step|]; reflexivity).
  split.
  - rewrite field_paintBadge;
      try rewrite length_paintNodes;
      try solve [reflexivity | tauto | intros ? []; reflexivity
                | intros b Eb; cbn in Eb; rewrite Eb in Hb; tauto].
    unfold IconLabel.paintNodes, IconLabel.paintLabel.
    cbn [IconLabel.domNode IconLabel.labelNode IconLabel.descriptionNode].
    frame_step. unfold FastLabelNode.memo_write at 1.
    destruct (FastLabelNode.disposed ds).
    + destruct ln as [f|hel]; rewrite ?(field_memo_write_ne Dom.textContent) by lia;
        repeat frame_step; apply Hcol.
    + rewrite field_alter_eq. rewrite <- text_of_default.
      apply field_const; [reflexivity|].
      destruct ln; rewrite !length_memo_write; apply Hlen; tauto.
  - intros f ->. 
    rewrite field_paintBadge;
      try rewrite length_paintNodes;
      try solve [reflexivity | tauto | intros ? []; reflexivity
                | intros b Eb; cbn in Eb; rewrite Eb in Hb; tauto].
    unfold IconLabel.paintNodes, IconLabel.paintLabel.
    cbn [IconLabel.domNode IconLabel.labelNode IconLabel.descriptionNode].
    frame_step. rewrite (field_memo_write_ne Dom.textContent) by lia.
    unfold FastLabelNode.memo_write at 1.
    destruct (FastLabelNode.disposed f).
    + repeat frame_step. apply Hcol.
    + rewrite field_alter_eq. rewrite <- text_of_default.
      apply field_const; [reflexivity|].
      rewrite !length_memo_write. apply Hlen. tauto.
Qed.

Lemma setValue_sets_texts_witness :
  IconLabel.wf Sample.fresh.1 (elements Sample.fresh.2) ∧
  Dom.get Dom.textContent 3
    (IconLabel.world
       (IconLabel.setValue (Some "main.ts") (Some "/src") None
          Sample.fresh.1 Sample.fresh.2))
  = Some "/src".
Proof.
  assert (H : IconLabel.wf Sample.fresh.1 (elements Sample.fresh.2)) by by_computation.
  split; [exact H|].
  exact (proj1 (setValue_sets_texts (Some "main.ts") (Some "/src") None
                  Sample.fresh.1 Sample.fresh.2 H)).
Defined.

(** ** Disposal, file labels, reachable labels *)

Section ListenerFacts.

Import IconLabel.

Lemma step_listeners op s :
  listeners (step op s).2 = listeners s.2 ∧
  next_listener (step op s).2 = next_listener s.2 ∧
  calls (step op s).2 = calls s.2.
Proof.
  destruct op as [l d o|]; cbn [step fst snd].
  - destruct (setValue_rest l d o s.1 s.2) as (H1 & H2 & H3 & _). tauto.
  - unfold dispose. destruct (labelNode s.1); repeat split.
Qed.

Lemma exec_listeners ops s :
  listeners (exec ops s).2 = listeners s.2 ∧
  next_listener (exec ops s).2 = next_listener s.2 ∧
  calls (exec ops s).2 = calls s.2.
Proof.
  revert s. induction ops as [|op ops IH]; intros s; simpl; [tauto|].
  destruct (IH (step op s)) as (-> & -> & ->). apply step_listeners.
Qed.

End ListenerFacts.

(** X14.  No run of [setValue] and [dispose] calls registers or detaches
    a listener or invokes a callback.  In particular [dispose] leaves the
    listeners registered through [onClick] in place, so a click invokes
    after it what it invoked before; it removes no element and changes
    none; and what it does to the wrappers is for good: no later run of
    calls makes one of them live again. *)
Theorem calls_leave_listeners_alone (ops later : list IconLabel.Op)
    (this : IconLabel.t) (w : World) :
  let s := IconLabel.exec ops (this, w) in
  let d := IconLabel.dispose s.1 s.2 in
  listeners s.2 = listeners w ∧
  calls s.2 = calls w ∧
  (∀ target, calls (Lifecycle.click target d.2) = calls (Lifecycle.click target w)) ∧
  elements d.2 = elements s.2 ∧
  IconLabel.badgeNode d.1 = IconLabel.badgeNode s.1 ∧
  IconLabel.disposed_all (IconLabel.exec later d).1.
Proof.
  cbv zeta.
  destruct (exec_listeners ops (this, w)) as (H1 & H2 & H3). cbn [fst snd] in *.
  set (s := IconLabel.exec ops (this, w)) in *.
  destruct (step_listeners IconLabel.OpDispose s) as (D1 & D2 & D3).
  destruct (dispose_spec s.1 s.2) as (E & Hb & _).
  cbn [IconLabel.step] in *.
  split; [exact H1|]. split; [exact H3|].
  split; [|split; [exact E|split; [exact Hb|]]].
  - intros target. unfold Lifecycle.click, Lifecycle.reached. cbn [calls].
    rewrite D1, D3, H1, H3. reflexivity.
  - apply exec_disposed_all. apply dispose_disposed_all.
Qed.

Section FileLabelMore.

Context {IWorkspaceFolderProvider IUserHomeProvider : Type}.
Variable dirname basename : string → string.
Variable getPathLabel :
  string → IWorkspaceFolderProvider → option IUserHomeProvider → string.

(** X15.  [setFile] passes options that carry a title and nothing else.
    So it never throws and creates no element, it clears the text color of
    the container, and on a label that holds a badge element it hides that
    element. *)
Theorem setFile_clears_color_and_badge (file : FileLabel.uri)
    (provider : IWorkspaceFolderProvider) (userHome : option IUserHomeProvider)
    (this : IconLabel.t) (w : World)
    (Hwf : IconLabel.wf this (elements w)) :
  let r := FileLabel.setFile dirname basename getPathLabel file provider userHome this w in
  IconLabel.completion r = IconLabel.Normal ∧
  IconLabel.badgeNode (IconLabel.widget r) = IconLabel.badgeNode this ∧
  length (elements (IconLabel.world r)) = length (elements w) ∧
  Dom.get Dom.color (IconLabel.element this) (IconLabel.world r) = Some "" ∧
  ∀ b, IconLabel.badgeNode this = Some b →
       Dom.get Dom.display b (IconLabel.world r) = Some DomHelpers.hidden.
Proof.
  cbv zeta. unfold FileLabel.setFile.
  match goal with
  | |- context [IconLabel.setValue ?l ?d ?o this w] =>
      destruct (setValue_rest l d o this w) as (_ & _ & _ & _ & Hc & Hb & Hl);
      pose proof (setValue_color l d o this w Hwf) as Hcol;
      pose proof (λ b, setValue_badge_display l d o this w b Hwf) as Hd
  end.
  rewrite Hc, Hb, Hl, Hcol.
  unfold IconLabel.completion_of, IconLabel.badge_after.
  cbn [IconLabel.badge_request IconLabel.badge IconLabel.colorText IconLabel.color
       mbind option_bind] in *.
  split; [reflexivity|]. split; [reflexivity|].
  split; [destruct (IconLabel.badgeNode this); reflexivity|].
  split; [reflexivity|].
  intros b E. rewrite (Hd b E). reflexivity.
Qed.

End FileLabelMore.

Lemma setFile_clears_color_and_badge_witness :
  IconLabel.wf Sample.badged.1 (elements Sample.badged.2) ∧
  let r :=
    FileLabel.setFile Paths.dirname Paths.basename (λ p (_ : unit) (_ : option unit), p)
      (FileLabel.mkUri "/src/main.ts") tt None Sample.badged.1 Sample.badged.2 in
  Dom.get Dom.color 1 Sample.badged.2 = Some "#ff0000" ∧
  Dom.get Dom.color 1 (IconLabel.world r) = Some "".
Proof.
  assert (H : IconLabel.wf Sample.badged.1 (elements Sample.badged.2)) by by_computation.
  split; [exact H|]. split; [reflexivity|].
  destruct (setFile_clears_color_and_badge Paths.dirname Paths.basename
              (λ p (_ : unit) (_ : option unit), p)
              (FileLabel.mkUri "/src/main.ts") tt None
              Sample.badged.1 Sample.badged.2 H) as (_ & _ & _ & Hc & _).
  exact Hc.
Defined.

(** X16.  Every label reached from the constructor by any run of
    [setValue] and [dispose] calls keeps the invariant of the widget: it
    is built on the three elements the constructor created, these and the
    badge element exist and are pairwise distinct, the cache of every
    wrapper agrees with its element, and the document holds the three
    elements of the label and at most one more. *)
Theorem reachable_labels_keep_the_invariant (container : nat)
    (creation : option IconLabel.IIconLabelCreationOptions) (w : World)
    (ops : list IconLabel.Op) :
  let n := length (elements w) in
  let s := IconLabel.exec ops (IconLabel.new container creation w) in
  IconLabel.wf s.1 (elements s.2) ∧
  IconLabel.element s.1 = n ∧
  IconLabel.labelElement s.1 = S n ∧
  FastLabelNode.element (IconLabel.descriptionNode s.1) = S (S n) ∧
  (S (S (S n)) ≤ length (elements s.2) ≤ S (S (S (S n))))%nat.
Proof.
  cbv zeta.
  destruct (new_spec container creation w) as (E1 & E2 & E3 & Hb & _ & L & Hwf).
  cbv zeta in *.
  set (s0 := IconLabel.new container creation w) in *.
  destruct (exec_ids ops s0) as (-> & -> & ->).
  destruct (exec_count ops s0) as [Hl _]. cbv zeta in Hl. rewrite Hb, L in Hl.
  split; [apply exec_wf; exact Hwf|].
  split; [exact E1|]. split; [exact E2|]. split; [exact E3|].
  rewrite Hl. clear. generalize (length (elements w)). intros n.
  destruct (IconLabel.badgeNode _); cbn [Nat.add]; split; lia.
Qed.

(** ** Two registrations *)

Section TwoClicks.

Import IconLabel Lifecycle.

Lemma dispose_keeps_others (d : IDisposable) w target :
  calls (click target (Lifecycle.dispose d w)) =
  (calls w ++
   (l_callback <$>
      filter (λ l, l_target l = target ∧ l_type l = "click")
        (filter (λ l, l_id l ∉ d) (listeners w))))%list.
Proof. reflexivity. Qed.

End TwoClicks.

(** X17.  Every [onClick] call makes registrations of its own.  After two
    calls a click on the label element invokes both callbacks, in the
    order they were registered; disposing the handle of the one leaves the
    other in place, and disposing both leaves the listeners there were
    before. *)
Theorem onClick_handles_are_independent (first second : nat) (this : IconLabel.t)
    (w : World)
    (Hne : IconLabel.labelElement this ≠
           FastLabelNode.element (IconLabel.descriptionNode this))
    (Hok : Lifecycle.listeners_ok w) :
  let p1 := IconLabel.onClick first this w in
  let p2 := IconLabel.onClick second this p1.2 in
  let label := IconLabel.labelElement this in
  calls (Lifecycle.click label p2.2) =
    (calls (Lifecycle.click label w) ++ [first; second])%list ∧
  calls (Lifecycle.click label (Lifecycle.dispose p1.1 p2.2)) =
    (calls (Lifecycle.click label w) ++ [second])%list ∧
  calls (Lifecycle.click label (Lifecycle.dispose p2.1 p2.2)) =
    (calls (Lifecycle.click label w) ++ [first])%list ∧
  listeners (Lifecycle.dispose p2.1 (Lifecycle.dispose p1.1 p2.2)) = listeners w.
Proof.
  cbv zeta.
  assert (Hold : ∀ d : list nat, (∀ i, i ∈ d → (next_listener w ≤ i)%nat) →
            Forall (λ l, l_id l ∉ d) (listeners w)).
  { intros d Hd. eapply Forall_impl; [exact Hok|]. simpl. intros l Hl Hin.
    specialize (Hd _ Hin). lia. }
  rewrite !onClick_eq. cbn [fst snd next_listener listeners elements effects calls].
  set (nl := next_listener w) in *.
  assert (H12 : Forall (λ l, l_id l ∉ [nl; S nl]) (listeners w)).
  { apply Hold. intros i Hi. rewrite !elem_of_cons in Hi.
    destruct Hi as [->|[->|Hi]]; [lia|lia|]. apply elem_of_nil in Hi. contradiction. }
  assert (H34 : Forall (λ l, l_id l ∉ [S (S nl); S (S (S nl))]) (listeners w)).
  { apply Hold. intros i Hi. rewrite !elem_of_cons in Hi.
    destruct Hi as [->|[->|Hi]]; [lia|lia|]. apply elem_of_nil in Hi. contradiction. }
  split; [|split; [|split]].
  - unfold Lifecycle.click, Lifecycle.reached. cbn [listeners calls].
    rewrite !filter_app, !fmap_app, <- !app_assoc. f_equal. f_equal.
    repeat first [rewrite filter_cons | rewrite filter_nil | case_decide];
      cbn [l_target l_type l_callback fmap list_fmap app] in *;
      try reflexivity; exfalso; intuition congruence.
  - rewrite dispose_keeps_others. unfold Lifecycle.click, Lifecycle.reached.
    cbn [listeners calls].
    rewrite <- app_assoc. rewrite !filter_app. rewrite (@filter_all _ _ _ _ H12).
    rewrite !fmap_app, <- !app_assoc. f_equal. f_equal.
    repeat first [rewrite filter_cons | rewrite filter_nil | case_decide];
      cbn [l_id l_target l_type l_callback fmap list_fmap app] in *;
      try reflexivity; exfalso;
      first [ intuition congruence
            | match goal with
              | H : ?i ∉ ?d |- _ => apply H; rewrite !elem_of_cons; auto; fail
              end
            | match goal with
              | H : ?i ∈ ?d |- _ => rewrite !elem_of_cons, elem_of_nil in H; lia
              end ].
  - rewrite dispose_keeps_others. unfold Lifecycle.click, Lifecycle.reached.
    cbn [listeners calls].
    rewrite <- app_assoc. rewrite !filter_app. rewrite (@filter_all _ _ _ _ H34).
    rewrite !fmap_app, <- !app_assoc. f_equal. f_equal.
    repeat first [rewrite filter_cons | rewrite filter_nil | case_decide];
      cbn [l_id l_target l_type l_callback fmap list_fmap app] in *;
      try reflexivity; exfalso;
      first [ intuition congruence
            | match goal with
              | H : ?i ∉ ?d |- _ => apply H; rewrite !elem_of_cons; auto; fail
              end
            | match goal with
              | H : ?i ∈ ?d |- _ => rewrite !elem_of_cons, elem_of_nil in H; lia
              end ].
  - unfold Lifecycle.dispose. cbn [listeners].
    rewrite <- app_assoc. rewrite !filter_app.
    rewrite (@filter_all _ _ _ _ H12), (@filter_all _ _ _ _ H34).
    repeat first [rewrite filter_cons | rewrite filter_nil | case_decide];
      cbn [l_id app] in *;
      try (rewrite app_nil_r; reflexivity); exfalso;
      first [ match goal with
              | H : ?i ∉ ?d |- _ => apply H; rewrite !elem_of_cons; auto; fail
              end
            | match goal with
              | H : ?i ∈ ?d |- _ => rewrite !elem_of_cons, elem_of_nil in H; lia
              end ].
Qed.

Lemma onClick_handles_are_independent_witness :
  IconLabel.labelElement Sample.fresh.1 ≠
    FastLabelNode.element (IconLabel.descriptionNode Sample.fresh.1) ∧
  Lifecycle.listeners_ok Sample.fresh.2 ∧
  calls (Lifecycle.click 2
           (IconLabel.onClick 8 Sample.fresh.1
              (IconLabel.onClick 7 Sample.fresh.1 Sample.fresh.2).2).2) = [7; 8].
Proof.
  assert (Hne : IconLabel.labelElement Sample.fresh.1 ≠
                FastLabelNode.element (IconLabel.descriptionNode Sample.fresh.1))
    by (vm_compute; lia).
  assert (Hok : Lifecycle.listeners_ok Sample.fresh.2) by (vm_compute; constructor).
  split; [exact Hne|]. split; [exact Hok|].
  destruct (onClick_handles_are_independent 7 8 Sample.fresh.1 Sample.fresh.2 Hne Hok)
    as (Hc & _).
  etransitivity; [exact Hc|reflexivity].
Defined.
